(** * dify-client-python: the streaming protocol layer, embedded and verified

    A shallow embedding of the parts of [dify_client] that decide how a server
    reply becomes a typed event or a typed failure:

    - [utils/_common.py]   : [str_to_enum]
    - [models/stream.py]   : [StreamEvent], the stream response shapes and the
                             three [build_*_stream_response] dispatchers
    - [models/base.py]     : [ErrorResponse]
    - [errors.py]          : the exception classes, [SPEC_CODE_ERRORS] and
                             [raise_for_status]
    - [_clientx.py]        : [_prepare_auth_headers], the content-type guard
                             and the [request_stream] generator

    Python objects are modelled by the inductive [py]; a dict is a
    [gmap string py]; a call that may raise returns a [result]; a generator is
    the list of what it does (reads, yields) together with how it ends. *)

From Stdlib Require Import ZArith String Ascii List Bool Lia.
From stdpp Require Import base tactics option list strings gmap fin_maps.

Local Open Scope Z_scope.
Local Open Scope string_scope.

(** ** Python values *)

(** A Python [float]: not-a-number, an infinity, or the dyadic [m * 2^e]. *)
Inductive pyfloat :=
  | FNan
  | FInf (negative : bool)
  | FDyadic (m e : Z).

(** The objects [json.loads] can return. *)
#[local] Unset Elimination Schemes.
Inductive py :=
  | PyNone
  | PyBool (b : bool)
  | PyInt (n : Z)
  | PyFloat (f : pyfloat)
  | PyStr (s : string)
  | PyList (l : list py)
  | PyDict (d : gmap string py).
#[local] Set Elimination Schemes.

(** [v == s] for a [str] [s]: only an equal string compares equal. *)
Definition py_eq_str (v : py) (s : string) : bool :=
  match v with
  | PyStr t => String.eqb t s
  | _ => false
  end.

(** ** Exceptions *)

(** The exception classes of [errors.py]; [DifyAPIError] is their base. *)
Inductive DifyErrorClass :=
  | DifyAPIError
  | DifyInvalidParam
  | DifyNotChatApp
  | DifyResourceNotFound
  | DifyAppUnavailable
  | DifyProviderNotInitialize
  | DifyProviderQuotaExceeded
  | DifyModelCurrentlyNotSupport
  | DifyCompletionRequestError
  | DifyInternalServerError
  | DifyNoFileUploaded
  | DifyTooManyFiles
  | DifyUnsupportedPreview
  | DifyUnsupportedEstimate
  | DifyFileTooLarge
  | DifyUnsupportedFileType
  | DifyS3ConnectionFailed
  | DifyS3PermissionDenied
  | DifyS3FileTooLarge.

(** What a call can raise.  [ValueError msg arg] is [ValueError(f"{msg}{arg}")];
    [DifyError cls status code message] is [cls(status, code, message)], whose
    [__init__] stores the three arguments as attributes. *)
Inductive exn :=
  | ValueError (msg : string) (arg : py)
  | TypeError
  | AttributeError
  | JSONDecodeError
  | ValidationError
  | SSEError
  | DifyError (cls : DifyErrorClass) (status : Z) (code message : string).

Inductive result (A : Type) :=
  | Ok (a : A)
  | Raise (e : exn).
Arguments Ok {A} a.
Arguments Raise {A} e.

#[global] Instance result_ret : MRet result := λ A a, Ok a.
#[global] Instance result_bind : MBind result := λ A B f r,
  match r with
  | Ok a => f a
  | Raise e => Raise e
  end.

(** [x if x is not None else raise e], for the library calls modelled as
    partial functions. *)
Definition or_raise {A} (e : exn) (o : option A) : result A :=
  match o with
  | Some a => Ok a
  | None => Raise e
  end.

(** ** Collaborators outside the repository

    [json.loads], and the parts of pydantic's type validation whose outcome no
    dispatch or classification decision depends on, are taken as given. *)
Inductive nested_model :=
  | Metadata
  | WorkflowData.

Class Externals := {
  (** [json.loads(text)]; [None] when it raises [JSONDecodeError]. *)
  json_loads : string → option py;
  (** pydantic's lax-mode coercion to [int] of an input that is not an [int]. *)
  lax_int : py → option Z;
  (** pydantic's validation of [Metadata] and of the union of the four
      workflow data records ([models/workflow.py]). *)
  validate_nested : nested_model → py → option py
}.

(** ** The [str] methods the code calls

    Strings are byte strings; [lower] folds the ASCII capitals only.  On the
    one comparison the code makes with it, against the ASCII literal
    [authorization], this agrees with Python's Unicode-aware [str.lower]: no
    character outside ASCII lower-cases to a letter of that word. *)
Module str.

Definition lower_char (c : ascii) : ascii :=
  let n := nat_of_ascii c in
  if (65 <=? n)%nat && (n <=? 90)%nat then ascii_of_nat (n + 32) else c.

Fixpoint lower (s : string) : string :=
  match s with
  | EmptyString => EmptyString
  | String c rest => String (lower_char c) (lower rest)
  end.

(** [s.partition(sep)[0]]: what precedes the first [sep], all of [s] if there
    is none. *)
Fixpoint partition_head (sep : ascii) (s : string) : string :=
  match s with
  | EmptyString => EmptyString
  | String c rest =>
      if Ascii.eqb c sep then EmptyString else String c (partition_head sep rest)
  end.

(** [needle in hay] *)
Fixpoint contains (needle hay : string) : bool :=
  String.prefix needle hay ||
  match hay with
  | EmptyString => false
  | String _ rest => contains needle rest
  end.

End str.

(** [http.HTTPStatus], the two members the code compares with. *)
Module HTTPStatus.
Definition NOT_FOUND : Z := 404.
Definition INTERNAL_SERVER_ERROR : Z := 500.
End HTTPStatus.

(** ** httpx and httpx_sse: the objects the transport hands over *)

Module httpx.

Record Response := {
  status_code : Z;
  headers : list (string * string);
  content : string
}.

Definition is_success (r : Response) : bool :=
  (200 <=? status_code r)%Z && (status_code r <=? 299)%Z.

(** [Headers.get(key, default)]: names compare case-insensitively and the
    values of a repeated header are joined with a comma and a space. *)
Definition Headers_get (hs : list (string * string)) (key default : string) : string :=
  match filter (λ kv, str.lower kv.1 = str.lower key) hs with
  | [] => default
  | items => String.concat ", " items.*2
  end.

Definition json `{Externals} (r : Response) : result py :=
  or_raise JSONDecodeError (json_loads (content r)).

End httpx.

Module httpx_sse.

Record ServerSentEvent := {
  event : string;
  data : string;
  id : string;
  retry : option Z
}.

Definition json `{Externals} (sse : ServerSentEvent) : result py :=
  or_raise JSONDecodeError (json_loads (data sse)).

(** What [connect_sse] returns: the response, and [incoming], the events the
    SSE decoder produces from its body. *)
Record EventSource := {
  response : httpx.Response;
  incoming : list ServerSentEvent
}.

(** [EventSource.iter_sse] refuses a response whose content type does not
    mention [text/event-stream] before it decodes anything. *)
Definition iter_sse (event_source : EventSource) : result (list ServerSentEvent) :=
  let content_type :=
    str.partition_head ";"
      (httpx.Headers_get (httpx.headers (response event_source)) "content-type" "") in
  if str.contains "text/event-stream" content_type then Ok (incoming event_source)
  else Raise SSEError.

End httpx_sse.

(** ** utils/_common.py *)

Module utils.

(** A [StrEnum] class: [members] is [cls.__members__.items()] in definition
    order, [value] is [member.value]. *)
Record EnumClass (M : Type) := {
  members : list (string * M);
  value : M → string
}.
Arguments members {M} _.
Arguments value {M} _ _.

(** The loop of [str_to_enum]: the first member whose value equals
    [str_value]. *)
Fixpoint first_match {M} (value : M → string) (str_value : py)
    (items : list (string * M)) : option M :=
  match items with
  | [] => None
  | (_, member) :: rest =>
      if py_eq_str str_value (value member) then Some member
      else first_match value str_value rest
  end.

(** The result is a member ([inl]) or the caller's [enum_default] ([inr]). *)
Definition str_to_enum {M D} (str_enum_class : EnumClass M) (str_value : py)
    (ignore_not_found : bool) (enum_default : D) : result (M + D) :=
  match first_match (value str_enum_class) str_value (members str_enum_class) with
  | Some member => Ok (inl member)
  | None =>
      if ignore_not_found then Ok (inr enum_default)
      else Raise (ValueError "Invalid enum value: " str_value)
  end.

End utils.

(** ** models/base.py and models/stream.py *)

Module models.

Definition STREAM_EVENT_KEY : string := "event".

Module StreamEvent.

Inductive t :=
  | MESSAGE
  | AGENT_MESSAGE
  | AGENT_THOUGHT
  | MESSAGE_FILE
  | WORKFLOW_STARTED
  | NODE_STARTED
  | NODE_FINISHED
  | WORKFLOW_FINISHED
  | MESSAGE_END
  | MESSAGE_REPLACE
  | ERROR
  | PING.

#[global] Instance eq_dec : EqDecision t.
Proof. solve_decision. Defined.

Definition value (e : t) : string :=
  match e with
  | MESSAGE => "message"
  | AGENT_MESSAGE => "agent_message"
  | AGENT_THOUGHT => "agent_thought"
  | MESSAGE_FILE => "message_file"
  | WORKFLOW_STARTED => "workflow_started"
  | NODE_STARTED => "node_started"
  | NODE_FINISHED => "node_finished"
  | WORKFLOW_FINISHED => "workflow_finished"
  | MESSAGE_END => "message_end"
  | MESSAGE_REPLACE => "message_replace"
  | ERROR => "error"
  | PING => "ping"
  end.

Definition members : list (string * t) :=
  [ ("MESSAGE", MESSAGE); ("AGENT_MESSAGE", AGENT_MESSAGE);
    ("AGENT_THOUGHT", AGENT_THOUGHT); ("MESSAGE_FILE", MESSAGE_FILE);
    ("WORKFLOW_STARTED", WORKFLOW_STARTED); ("NODE_STARTED", NODE_STARTED);
    ("NODE_FINISHED", NODE_FINISHED); ("WORKFLOW_FINISHED", WORKFLOW_FINISHED);
    ("MESSAGE_END", MESSAGE_END); ("MESSAGE_REPLACE", MESSAGE_REPLACE);
    ("ERROR", ERROR); ("PING", PING) ].

Definition cls : utils.EnumClass t :=
  {| utils.members := members; utils.value := value |}.

(** [new(event)]: [event] is already a member ([inl]) or any other object
    ([inr]); [str_to_enum] is called with its defaults (strict, [None]). *)
Definition new (event : t + py) : result (t + py) :=
  match event with
  | inl _ => Ok event
  | inr str_value => utils.str_to_enum cls str_value false PyNone
  end.

End StreamEvent.

(** *** Field annotations and their validation *)

Inductive annotation :=
  | TStr
  | TInt
  | TOptional (inner : annotation)
  | TListStr
  | TNested (n : nested_model).

Definition is_str (v : py) : bool :=
  match v with
  | PyStr _ => true
  | _ => false
  end.

Definition validate_str (v : py) : option string :=
  match v with
  | PyStr s => Some s
  | _ => None
  end.

Definition validate_optional {A} (inner : py → option A) (v : py) : option (option A) :=
  match v with
  | PyNone => Some None
  | _ => Some <$> inner v
  end.

(** A field given in the input is validated; an absent one takes its default
    (defaults are not validated) or, having none, is reported missing. *)
Definition field_value {A} (validator : py → option A) (default : option A)
    (given : option py) : option A :=
  match given with
  | Some v => validator v
  | None => default
  end.

Section validation.
Context `{Externals}.

Definition validate_int (v : py) : option Z :=
  match v with
  | PyInt n => Some n
  | _ => lax_int v
  end.

Fixpoint validate_type (a : annotation) (v : py) : option py :=
  match a with
  | TStr => PyStr <$> validate_str v
  | TInt => PyInt <$> validate_int v
  | TOptional inner =>
      match v with
      | PyNone => Some PyNone
      | _ => validate_type inner v
      end
  | TListStr =>
      match v with
      | PyList l => if forallb is_str l then Some v else None
      | _ => None
      end
  | TNested n => validate_nested n v
  end.

(** The [event] field of every stream shape: the "before" validator
    [transform_stream_event] runs [StreamEvent.new] on the raw input (a
    [ValueError] it raises is reported as a validation error); what it returns
    is then validated as a [StreamEvent], a member as itself and any other
    object by value.  The field has no default. *)
Definition transform_stream_event (event : py) : result (StreamEvent.t + py) :=
  StreamEvent.new (inr event).

Definition validate_event (given : option py) : option StreamEvent.t :=
  match given with
  | None => None
  | Some v =>
      match transform_stream_event v with
      | Ok (inl e) => Some e
      | Ok (inr w) => utils.first_match StreamEvent.value w StreamEvent.members
      | Raise _ => None
      end
  end.

(** [task_id: Optional[str] = ""] *)
Definition validate_task_id (given : option py) : option (option string) :=
  field_value (validate_optional validate_str) (Some (Some "")) given.

(** *** models/base.py: ErrorResponse *)

Record ErrorResponse := {
  status : Z;
  code : string;
  message : string
}.

(** [ErrorResponse] built from the unpacked dict [data]: [status: int = HTTPStatus.INTERNAL_SERVER_ERROR],
    [code: str = ""], [message: str = ""]; fields it does not declare are
    ignored (pydantic's default for a model without [extra]). *)
Definition ErrorResponse_init (data : gmap string py) : result ErrorResponse :=
  match field_value validate_int (Some HTTPStatus.INTERNAL_SERVER_ERROR) (data !! "status"),
        field_value validate_str (Some "") (data !! "code"),
        field_value validate_str (Some "") (data !! "message") with
  | Some s, Some c, Some m => Ok {| status := s; code := c; message := m |}
  | _, _, _ => Raise ValidationError
  end.

(** *** models/stream.py: the stream response shapes *)

Inductive shape :=
  | StreamResponse
  | PingResponse
  | MessageStreamResponse
  | MessageEndStreamResponse
  | MessageReplaceStreamResponse
  | AgentMessageStreamResponse
  | AgentThoughtStreamResponse
  | MessageFileStreamResponse
  | WorkflowsStreamResponse
  | ChatWorkflowsStreamResponse.

Record Field := {
  field_name : string;
  field_type : annotation;
  field_default : option py
}.

Definition required (name : string) (a : annotation) : Field :=
  {| field_name := name; field_type := a; field_default := None |}.

Definition defaulted (name : string) (a : annotation) (d : py) : Field :=
  {| field_name := name; field_type := a; field_default := Some d |}.

Definition MessageStreamResponse_fields : list Field :=
  [ required "message_id" TStr;
    defaulted "conversation_id" (TOptional TStr) (PyStr "");
    required "answer" TStr;
    required "created_at" TInt ].

Definition MessageEndStreamResponse_fields : list Field :=
  [ required "message_id" TStr;
    defaulted "conversation_id" (TOptional TStr) (PyStr "");
    required "created_at" TInt;
    required "metadata" (TOptional (TNested Metadata)) ].

Definition AgentThoughtStreamResponse_fields : list Field :=
  [ required "id" TStr;
    required "message_id" TStr;
    required "conversation_id" TStr;
    required "position" TInt;
    required "thought" TStr;
    required "observation" TStr;
    required "tool" TStr;
    required "tool_input" TStr;
    defaulted "message_files" TListStr (PyList []);
    required "created_at" TInt ].

Definition MessageFileStreamResponse_fields : list Field :=
  [ required "id" TStr;
    required "conversation_id" TStr;
    required "type" TStr;
    required "belongs_to" TStr;
    required "url" TStr ].

Definition WorkflowsStreamResponse_fields : list Field :=
  [ required "workflow_run_id" TStr;
    required "data" (TOptional (TNested WorkflowData)) ].

Definition ChatWorkflowsStreamResponse_fields : list Field :=
  (WorkflowsStreamResponse_fields ++
   [ required "message_id" TStr;
     required "conversation_id" TStr;
     required "created_at" TInt ])%list.

(** The fields a shape declares beyond [event] and [task_id], which all of
    them inherit from [StreamResponse]. *)
Definition own_fields (cls : shape) : list Field :=
  match cls with
  | StreamResponse | PingResponse => []
  | MessageStreamResponse
  | MessageReplaceStreamResponse
  | AgentMessageStreamResponse => MessageStreamResponse_fields
  | MessageEndStreamResponse => MessageEndStreamResponse_fields
  | AgentThoughtStreamResponse => AgentThoughtStreamResponse_fields
  | MessageFileStreamResponse => MessageFileStreamResponse_fields
  | WorkflowsStreamResponse => WorkflowsStreamResponse_fields
  | ChatWorkflowsStreamResponse => ChatWorkflowsStreamResponse_fields
  end.

Definition declared_names (cls : shape) : list string :=
  "event" :: "task_id" :: (field_name <$> own_fields cls).

(** An instance of a stream shape: its class, the two inherited fields, the
    validated fields of the class itself, and, because [StreamResponse] sets
    [extra='allow'], every input entry that is not a declared field. *)
Record stream_response := {
  class_of : shape;
  event : StreamEvent.t;
  task_id : option string;
  attrs : gmap string py;
  model_extra : gmap string py
}.

Fixpoint validate_fields (fields : list Field) (data : gmap string py)
    : option (gmap string py) :=
  match fields with
  | [] => Some ∅
  | f :: rest =>
      v ← field_value (validate_type (field_type f)) (field_default f)
            (data !! field_name f);
      m ← validate_fields rest data;
      Some (<[field_name f := v]> m)
  end.

Definition extra_of (names : list string) (data : gmap string py) : gmap string py :=
  foldr delete data names.

(** The class [cls] called on the unpacked dict [data]. *)
Definition instantiate (cls : shape) (data : gmap string py) : result stream_response :=
  match validate_event (data !! "event"),
        validate_task_id (data !! "task_id"),
        validate_fields (own_fields cls) data with
  | Some e, Some t, Some fs =>
      Ok {| class_of := cls; event := e; task_id := t; attrs := fs;
            model_extra := extra_of (declared_names cls) data |}
  | _, _, _ => Raise ValidationError
  end.

(** [ErrorStreamResponse(StreamResponse, ErrorResponse)], with
    [message_id: Optional[str] = ""]. *)
Record ErrorStreamResponse := {
  error_event : StreamEvent.t;
  error_task_id : option string;
  details : ErrorResponse;
  message_id : option string;
  error_extra : gmap string py
}.

Definition ErrorStreamResponse_names : list string :=
  ["event"; "task_id"; "status"; "code"; "message"; "message_id"].

Definition ErrorStreamResponse_init (data : gmap string py) : result ErrorStreamResponse :=
  match validate_event (data !! "event"),
        validate_task_id (data !! "task_id"),
        ErrorResponse_init data,
        field_value (validate_optional validate_str) (Some (Some "")) (data !! "message_id") with
  | Some e, Some t, Ok d, Some mid =>
      Ok {| error_event := e; error_task_id := t; details := d; message_id := mid;
            error_extra := extra_of ErrorStreamResponse_names data |}
  | _, _, _, _ => Raise ValidationError
  end.

(** *** The three dispatch tables *)

(** [mapping.get(event, default)]: a [StreamEvent] key is found by a member,
    and, members being strings, by a [str] equal to its value. *)
Definition key_matches (event : StreamEvent.t + py) (key : StreamEvent.t) : bool :=
  match event with
  | inl e => bool_decide (e = key)
  | inr v => py_eq_str v (StreamEvent.value key)
  end.

Fixpoint mapping_get (mapping : list (StreamEvent.t * shape))
    (event : StreamEvent.t + py) (default : shape) : shape :=
  match mapping with
  | [] => default
  | (key, cls) :: rest =>
      if key_matches event key then cls else mapping_get rest event default
  end.

Definition _COMPLETION_EVENT_TO_STREAM_RESP_MAPPING : list (StreamEvent.t * shape) :=
  [ (StreamEvent.PING, PingResponse);
    (StreamEvent.MESSAGE, MessageStreamResponse);
    (StreamEvent.MESSAGE_END, MessageEndStreamResponse);
    (StreamEvent.MESSAGE_REPLACE, MessageReplaceStreamResponse) ].

Definition build_completion_stream_response (data : gmap string py)
    : result stream_response :=
  event ← StreamEvent.new (inr (default PyNone (data !! STREAM_EVENT_KEY)));
  instantiate (mapping_get _COMPLETION_EVENT_TO_STREAM_RESP_MAPPING event StreamResponse) data.

Definition _CHAT_EVENT_TO_STREAM_RESP_MAPPING : list (StreamEvent.t * shape) :=
  [ (StreamEvent.PING, PingResponse);
    (StreamEvent.MESSAGE, MessageStreamResponse);
    (StreamEvent.MESSAGE_END, MessageEndStreamResponse);
    (StreamEvent.MESSAGE_REPLACE, MessageReplaceStreamResponse);
    (StreamEvent.MESSAGE_FILE, MessageFileStreamResponse);
    (StreamEvent.AGENT_MESSAGE, AgentMessageStreamResponse);
    (StreamEvent.AGENT_THOUGHT, AgentThoughtStreamResponse);
    (StreamEvent.WORKFLOW_STARTED, WorkflowsStreamResponse);
    (StreamEvent.NODE_STARTED, WorkflowsStreamResponse);
    (StreamEvent.NODE_FINISHED, WorkflowsStreamResponse);
    (StreamEvent.WORKFLOW_FINISHED, WorkflowsStreamResponse) ].

Definition build_chat_stream_response (data : gmap string py)
    : result stream_response :=
  event ← StreamEvent.new (inr (default PyNone (data !! STREAM_EVENT_KEY)));
  instantiate (mapping_get _CHAT_EVENT_TO_STREAM_RESP_MAPPING event StreamResponse) data.

Definition _WORKFLOW_EVENT_TO_STREAM_RESP_MAPPING : list (StreamEvent.t * shape) :=
  [ (StreamEvent.PING, PingResponse);
    (StreamEvent.WORKFLOW_STARTED, WorkflowsStreamResponse);
    (StreamEvent.NODE_STARTED, WorkflowsStreamResponse);
    (StreamEvent.NODE_FINISHED, WorkflowsStreamResponse);
    (StreamEvent.WORKFLOW_FINISHED, WorkflowsStreamResponse) ].

Definition build_workflows_stream_response (data : gmap string py)
    : result stream_response :=
  event ← StreamEvent.new (inr (default PyNone (data !! STREAM_EVENT_KEY)));
  instantiate (mapping_get _WORKFLOW_EVENT_TO_STREAM_RESP_MAPPING event StreamResponse) data.

End validation.

End models.

(** ** errors.py *)

Module errors.
Import models.

Definition SPEC_CODE_ERRORS : gmap string DifyErrorClass :=
  list_to_map
    [ ("invalid_param", DifyInvalidParam);
      ("not_chat_app", DifyNotChatApp);
      ("app_unavailable", DifyAppUnavailable);
      ("provider_not_initialize", DifyProviderNotInitialize);
      ("provider_quota_exceeded", DifyProviderQuotaExceeded);
      ("model_currently_not_support", DifyModelCurrentlyNotSupport);
      ("completion_request_error", DifyCompletionRequestError);
      ("no_file_uploaded", DifyNoFileUploaded);
      ("too_many_files", DifyTooManyFiles);
      ("unsupported_preview", DifyUnsupportedPreview);
      ("unsupported_estimate", DifyUnsupportedEstimate);
      ("file_too_large", DifyFileTooLarge);
      ("unsupported_file_type", DifyUnsupportedFileType);
      ("s3_connection_failed", DifyS3ConnectionFailed);
      ("s3_permission_denied", DifyS3PermissionDenied);
      ("s3_file_too_large", DifyS3FileTooLarge) ].

(** The closing [if]/[elif]/[else] of [raise_for_status]: the exception it
    raises for the decoded [details]. *)
Definition classify (details : ErrorResponse) : exn :=
  if (status details =? HTTPStatus.NOT_FOUND)%Z then
    DifyError DifyResourceNotFound (status details) (code details) (message details)
  else if (status details =? HTTPStatus.INTERNAL_SERVER_ERROR)%Z then
    DifyError DifyInternalServerError (status details) (code details) (message details)
  else
    DifyError (default DifyAPIError (SPEC_CODE_ERRORS !! code details))
      (status details) (code details) (message details).

Section raise_for_status.
Context `{Externals}.

(** The [httpx.Response] branch, from the parsed body on.  Whatever is not a
    dict fails one of the three dict operations with a [TypeError]. *)
Definition response_details (r : httpx.Response) (body : py) : result ErrorResponse :=
  match body with
  | PyDict json =>
      let json :=
        match json !! "status" with
        | None => <["status" := PyInt (httpx.status_code r)]> json
        | Some _ => json
        end in
      ErrorResponse_init json
  | _ => Raise TypeError
  end.

(** The [ServerSentEvent] branch, from the parsed payload on; of the
    [ErrorStreamResponse] only the inherited [ErrorResponse] fields are read. *)
Definition event_details (payload : py) : result ErrorResponse :=
  match payload with
  | PyDict json => e ← ErrorStreamResponse_init json; Ok (details e)
  | _ => Raise TypeError
  end.

(** [raise_for_status(response)]: [Ok tt] is the plain [return]. *)
Definition raise_for_status (response : httpx.Response + httpx_sse.ServerSentEvent)
    : result unit :=
  match response with
  | inl r =>
      if httpx.is_success r then Ok tt
      else
        body ← httpx.json r;
        details ← response_details r body;
        Raise (classify details)
  | inr sse =>
      if negb (String.eqb (httpx_sse.event sse) (StreamEvent.value StreamEvent.ERROR))
      then Ok tt
      else
        payload ← httpx_sse.json sse;
        details ← event_details payload;
        Raise (classify details)
  end.

End raise_for_status.

End errors.

(** ** _clientx.py *)

Module _clientx.
Import models.

Definition IGNORED_STREAM_EVENTS : list string :=
  [StreamEvent.value StreamEvent.PING].

(** [x in t] for a tuple of strings *)
Definition str_in (x : string) (t : list string) : bool :=
  existsb (String.eqb x) t.

Record Client := {
  api_key : string;
  api_base : string
}.

(** The dict is updated in place; the model returns the updated dict. *)
Definition _prepare_auth_headers (self : Client) (headers : gmap string string)
    : gmap string string :=
  if negb (str_in "authorization" (str.lower <$> (map_to_list headers).*1)) then
    <["Authorization" := "Bearer " +:+ api_key self]> headers
  else headers.

(** The first three statements of [request] and of [request_stream]:
    [headers] is the caller's optional mapping, falsy when [None] or empty. *)
Definition merged_headers (self : Client) (headers : option (gmap string string))
    : gmap string string :=
  let merged : gmap string string := ∅ in
  let merged :=
    match headers with
    | Some h => if bool_decide (h = ∅) then merged else h ∪ merged
    | None => merged
    end in
  _prepare_auth_headers self merged.

Definition _get_content_type (headers : list (string * string)) : string :=
  str.partition_head ";" (httpx.Headers_get headers "content-type" "").

Definition _check_stream_content_type (response : httpx.Response) : bool :=
  let content_type := _get_content_type (httpx.headers response) in
  httpx.is_success response && str.contains "text/event-stream" content_type.

(** *** Generators

    A run of a generator is what it did, in order, and how it ended.
    [ReadBody] is [response.read()], [IterSse] the call of
    [event_source.iter_sse()], [Yield x] a value handed to the consumer. *)
Inductive step (A : Type) :=
  | ReadBody
  | IterSse
  | Yield (x : A).
Arguments ReadBody {A}.
Arguments IterSse {A}.
Arguments Yield {A} x.

Inductive ending :=
  | StopIteration
  | Raised (e : exn).

Definition run (A : Type) : Type := list (step A) * ending.

Definition then_run {A} (done : list (step A)) (r : run A) : run A :=
  ((done ++ r.1)%list, r.2).

Section streaming.
Context `{Externals}.

(** The body of the [for sse in event_source.iter_sse()] loop, over the events
    still to come. *)
Fixpoint sse_loop (events : list httpx_sse.ServerSentEvent)
    : run httpx_sse.ServerSentEvent :=
  match events with
  | [] => ([], StopIteration)
  | sse :: rest =>
      match errors.raise_for_status (inr sse) with
      | Raise e => ([], Raised e)
      | Ok _ =>
          if str_in (httpx_sse.event sse) IGNORED_STREAM_EVENTS
             || str_in (httpx_sse.data sse) IGNORED_STREAM_EVENTS
          then sse_loop rest
          else then_run [Yield sse] (sse_loop rest)
      end
  end.

Definition iterate (event_source : httpx_sse.EventSource)
    : run httpx_sse.ServerSentEvent :=
  match httpx_sse.iter_sse event_source with
  | Raise e => ([IterSse], Raised e)
  | Ok events => then_run [IterSse] (sse_loop events)
  end.

(** [request_stream], from the moment [connect_sse] has returned
    [event_source], run until the generator ends. *)
Definition request_stream (event_source : httpx_sse.EventSource)
    : run httpx_sse.ServerSentEvent :=
  let response := httpx_sse.response event_source in
  if negb (_check_stream_content_type response) then
    match errors.raise_for_status (inl response) with
    | Raise e => ([ReadBody], Raised e)
    | Ok _ => then_run [ReadBody] (iterate event_source)
    end
  else iterate event_source.

(** [build(sse.json())]; a payload that is not a dict has no [get]. *)
Definition decode (build : gmap string py → result stream_response)
    (sse : httpx_sse.ServerSentEvent) : result stream_response :=
  payload ← httpx_sse.json sse;
  match payload with
  | PyDict data => build data
  | _ => Raise AttributeError
  end.

(** [for sse in event_source: yield build(sse.json())] over a run of
    [request_stream]: a failed decode ends the consumer at once. *)
Fixpoint decode_steps (build : gmap string py → result stream_response)
    (steps : list (step httpx_sse.ServerSentEvent)) (e : ending)
    : run stream_response :=
  match steps with
  | [] => ([], e)
  | ReadBody :: rest => then_run [ReadBody] (decode_steps build rest e)
  | IterSse :: rest => then_run [IterSse] (decode_steps build rest e)
  | Yield sse :: rest =>
      match decode build sse with
      | Raise x => ([], Raised x)
      | Ok r => then_run [Yield r] (decode_steps build rest e)
      end
  end.

Definition _completion_messages_stream (event_source : httpx_sse.EventSource)
    : run stream_response :=
  let r := request_stream event_source in
  decode_steps build_completion_stream_response r.1 r.2.

Definition _chat_messages_stream (event_source : httpx_sse.EventSource)
    : run stream_response :=
  let r := request_stream event_source in
  decode_steps build_chat_stream_response r.1 r.2.

Definition _run_workflows_stream (event_source : httpx_sse.EventSource)
    : run stream_response :=
  let r := request_stream event_source in
  decode_steps build_workflows_stream_response r.1 r.2.

End streaming.

End _clientx.

(** ** An instance of the collaborators, to run the model

    [json_lite.loads] decodes the fragment of JSON without fractions,
    exponents and [\u] escapes, and refuses every other text; integers are
    validated without coercion and nested records are accepted as dicts. *)

Module json_lite.

Definition dq : ascii := "034"%char.

Definition is_ws (c : ascii) : bool :=
  Ascii.eqb c " " || Ascii.eqb c "009" || Ascii.eqb c "010" || Ascii.eqb c "013".

Fixpoint skip_ws (s : string) : string :=
  match s with
  | String c rest => if is_ws c then skip_ws rest else s
  | EmptyString => s
  end.

Definition digit (c : ascii) : option Z :=
  let n := nat_of_ascii c in
  if (48 <=? n)%nat && (n <=? 57)%nat then Some (Z.of_nat (n - 48)) else None.

(** The digits [s] starts with, read onto [acc], and what follows them. *)
Fixpoint digits (acc : Z) (s : string) : Z * string :=
  match s with
  | String c rest =>
      match digit c with
      | Some d => digits (10 * acc + d) rest
      | None => (acc, s)
      end
  | EmptyString => (acc, s)
  end.

(** What may follow an integer literal: no digit (a leading zero stands
    alone), no fraction, no exponent. *)
Definition ends_integer (s : string) : bool :=
  match s with
  | String c _ =>
      negb (Ascii.eqb c "." || Ascii.eqb c "e" || Ascii.eqb c "E")
      && negb (bool_decide (is_Some (digit c)))
  | EmptyString => true
  end.

Definition natural (s : string) : option (Z * string) :=
  match s with
  | String c rest =>
      match digit c with
      | Some d =>
          let r := if (d =? 0)%Z then (0, rest) else digits d rest in
          if ends_integer r.2 then Some r else None
      | None => None
      end
  | EmptyString => None
  end.

Definition integer (s : string) : option (py * string) :=
  match s with
  | String "-" rest => '(n, r) ← natural rest; Some (PyInt (- n), r)
  | _ => '(n, r) ← natural s; Some (PyInt n, r)
  end.

Definition unescape (c : ascii) : option ascii :=
  if Ascii.eqb c dq then Some dq
  else if Ascii.eqb c "\" then Some "\"%char
  else if Ascii.eqb c "/" then Some "/"%char
  else if Ascii.eqb c "b" then Some "008"%char
  else if Ascii.eqb c "f" then Some "012"%char
  else if Ascii.eqb c "n" then Some "010"%char
  else if Ascii.eqb c "r" then Some "013"%char
  else if Ascii.eqb c "t" then Some "009"%char
  else None.

(** After the opening quote: the characters up to the closing quote. *)
Fixpoint chars (s : string) : option (string * string) :=
  match s with
  | EmptyString => None
  | String c rest =>
      if Ascii.eqb c dq then Some (EmptyString, rest)
      else if Ascii.eqb c "\" then
        match rest with
        | String e rest' =>
            u ← unescape e;
            '(t, r) ← chars rest';
            Some (String u t, r)
        | EmptyString => None
        end
      else if (nat_of_ascii c <? 32)%nat then None
      else '(t, r) ← chars rest; Some (String c t, r)
  end.

Definition strip (word s : string) : option string :=
  if String.prefix word s
  then Some (String.substring (String.length word) (String.length s - String.length word) s)
  else None.

Fixpoint value (fuel : nat) (s : string) : option (py * string) :=
  match fuel with
  | O => None
  | S fuel =>
      match skip_ws s with
      | EmptyString => None
      | String c rest as s' =>
          if Ascii.eqb c dq then '(t, r) ← chars rest; Some (PyStr t, r)
          else if Ascii.eqb c "[" then
            match skip_ws rest with
            | String "]" r => Some (PyList [], r)
            | _ => '(l, r) ← elements fuel rest; Some (PyList l, r)
            end
          else if Ascii.eqb c "{" then
            match skip_ws rest with
            | String "}" r => Some (PyDict ∅, r)
            | _ => '(d, r) ← pairs fuel ∅ rest; Some (PyDict d, r)
            end
          else
            match strip "null" s', strip "true" s', strip "false" s' with
            | Some r, _, _ => Some (PyNone, r)
            | _, Some r, _ => Some (PyBool true, r)
            | _, _, Some r => Some (PyBool false, r)
            | _, _, _ => integer s'
            end
      end
  end
with elements (fuel : nat) (s : string) : option (list py * string) :=
  match fuel with
  | O => None
  | S fuel =>
      '(v, r) ← value fuel s;
      match skip_ws r with
      | String "," r' => '(l, r'') ← elements fuel r'; Some (v :: l, r'')
      | String "]" r' => Some ([v], r')
      | _ => None
      end
  end
with pairs (fuel : nat) (seen : gmap string py) (s : string)
    : option (gmap string py * string) :=
  match fuel with
  | O => None
  | S fuel =>
      match skip_ws s with
      | String c rest =>
          if Ascii.eqb c dq then
            '(k, r) ← chars rest;
            match skip_ws r with
            | String ":" r' =>
                '(v, r'') ← value fuel r';
                match skip_ws r'' with
                | String "," r3 => pairs fuel (<[k := v]> seen) r3
                | String "}" r3 => Some (<[k := v]> seen, r3)
                | _ => None
                end
            | _ => None
            end
          else None
      | EmptyString => None
      end
  end.

(** The whole text must be one value, white space around it allowed. *)
Definition loads (s : string) : option py :=
  '(v, r) ← value (2 * String.length s + 2) s;
  match skip_ws r with
  | EmptyString => Some v
  | _ => None
  end.

(** [quoted s] is the JSON string literal of a plain [s]. *)
Definition quoted (s : string) : string :=
  String dq (s +:+ String dq EmptyString).

End json_lite.

Definition reference : Externals := {|
  json_loads := json_lite.loads;
  lax_int := λ _, None;
  validate_nested := λ _ v, match v with PyDict _ => Some v | _ => None end
|}.

(** ** Vocabulary of the statements *)

(** The three endpoint families and their dispatchers. *)
Inductive family :=
  | completion
  | chat
  | workflow.

Definition build `{Externals} (f : family) : gmap string py → result models.stream_response :=
  match f with
  | completion => models.build_completion_stream_response
  | chat => models.build_chat_stream_response
  | workflow => models.build_workflows_stream_response
  end.

Definition table (f : family) : list (models.StreamEvent.t * models.shape) :=
  match f with
  | completion => models._COMPLETION_EVENT_TO_STREAM_RESP_MAPPING
  | chat => models._CHAT_EVENT_TO_STREAM_RESP_MAPPING
  | workflow => models._WORKFLOW_EVENT_TO_STREAM_RESP_MAPPING
  end.

(** A [task_id] that [Optional[str]] accepts: absent, [None] or a string. *)
Definition task_id_acceptable (data : gmap string py) : Prop :=
  match data !! "task_id" with
  | None | Some PyNone | Some (PyStr _) => True
  | Some _ => False
  end.

(** The tables as the specification words them: the shape declared for a tag
    in a family, [None] where the family's table has no entry for it. *)
Definition declared_shape (f : family) (e : models.StreamEvent.t) : option models.shape :=
  let lifecycle :=
    match e with
    | models.StreamEvent.WORKFLOW_STARTED | models.StreamEvent.NODE_STARTED
    | models.StreamEvent.NODE_FINISHED | models.StreamEvent.WORKFLOW_FINISHED =>
        Some models.WorkflowsStreamResponse
    | _ => None
    end in
  let completion_table :=
    match e with
    | models.StreamEvent.PING => Some models.PingResponse
    | models.StreamEvent.MESSAGE => Some models.MessageStreamResponse
    | models.StreamEvent.MESSAGE_END => Some models.MessageEndStreamResponse
    | models.StreamEvent.MESSAGE_REPLACE => Some models.MessageReplaceStreamResponse
    | _ => None
    end in
  match f with
  | completion => completion_table
  | chat =>
      match e with
      | models.StreamEvent.MESSAGE_FILE => Some models.MessageFileStreamResponse
      | models.StreamEvent.AGENT_MESSAGE => Some models.AgentMessageStreamResponse
      | models.StreamEvent.AGENT_THOUGHT => Some models.AgentThoughtStreamResponse
      | _ => if completion_table is Some cls then Some cls else lifecycle
      end
  | workflow =>
      match e with
      | models.StreamEvent.PING => Some models.PingResponse
      | _ => lifecycle
      end
  end.

(** The pings and the error events of a run, as the statements speak of
    them. *)
Definition is_ping (sse : httpx_sse.ServerSentEvent) : Prop :=
  httpx_sse.event sse = "ping" ∨ httpx_sse.data sse = "ping".

Definition error_tagged (sse : httpx_sse.ServerSentEvent) : Prop :=
  httpx_sse.event sse = "error".

(** The events that precede the first error-tagged one. *)
Fixpoint until_error (events : list httpx_sse.ServerSentEvent)
    : list httpx_sse.ServerSentEvent :=
  match events with
  | [] => []
  | sse :: rest => if decide (error_tagged sse) then [] else sse :: until_error rest
  end.

Definition survivors (events : list httpx_sse.ServerSentEvent)
    : list httpx_sse.ServerSentEvent :=
  filter (λ sse, ¬ is_ping sse) (until_error events).

(** ** Sample inputs *)

Module samples.
Import json_lite.

Definition message_payload : gmap string py :=
  list_to_map
    [ ("event", PyStr "message"); ("task_id", PyStr "t-1");
      ("message_id", PyStr "m-1"); ("answer", PyStr "hi");
      ("created_at", PyInt 1700000000) ].

Definition message_attrs : gmap string py :=
  list_to_map
    [ ("message_id", PyStr "m-1"); ("conversation_id", PyStr "");
      ("answer", PyStr "hi"); ("created_at", PyInt 1700000000) ].

Definition message_event : models.stream_response :=
  {| models.class_of := models.MessageStreamResponse;
     models.event := models.StreamEvent.MESSAGE;
     models.task_id := Some "t-1";
     models.attrs := message_attrs;
     models.model_extra := ∅ |}.

(** An agent event with a numeric [task_id]. *)
Definition numeric_task_id : gmap string py :=
  list_to_map [ ("event", PyStr "agent_message"); ("task_id", PyInt 5) ].

Definition sse (event data : string) : httpx_sse.ServerSentEvent :=
  {| httpx_sse.event := event; httpx_sse.data := data;
     httpx_sse.id := ""; httpx_sse.retry := None |}.

(** The text of a JSON object with string members, in the given order. *)
Fixpoint members (kvs : list (string * string)) : string :=
  match kvs with
  | [] => ""
  | [(k, v)] => quoted k +:+ ":" +:+ quoted v
  | (k, v) :: rest => quoted k +:+ ":" +:+ quoted v +:+ "," +:+ members rest
  end.

Definition object (kvs : list (string * string)) : string :=
  "{" +:+ members kvs +:+ "}".

(** An in-band error whose payload names a known code and no status. *)
Definition error_without_status : httpx_sse.ServerSentEvent :=
  sse "error"
    (object [("event", "error"); ("code", "invalid_param"); ("message", "bad input")]).

Definition message_sse (answer : string) : httpx_sse.ServerSentEvent :=
  sse "message" (object [("event", "message"); ("answer", answer)]).

Definition reply (status : Z) (content_type body : string)
    (events : list httpx_sse.ServerSentEvent) : httpx_sse.EventSource :=
  {| httpx_sse.response :=
       {| httpx.status_code := status;
          httpx.headers := [("Content-Type", content_type)];
          httpx.content := body |};
     httpx_sse.incoming := events |}.

(** Two pings, by tag and by data, among two messages. *)
Definition noisy_stream : list httpx_sse.ServerSentEvent :=
  [ sse "ping" ""; message_sse "a"; sse "message" "ping"; message_sse "b" ].

(** A streaming request refused with a JSON error body. *)
Definition refused : httpx_sse.EventSource :=
  reply 400 "application/json; charset=utf-8"
    (object [("code", "invalid_param"); ("message", "bad input")]) [].

(** A successful reply that is not an event stream. *)
Definition not_a_stream : httpx_sse.EventSource :=
  reply 200 "application/json" "{}" [].

(** A message event as the server words it, and a not-found error event. *)
Definition message_text : string :=
  "{" +:+ members [("event", "message"); ("task_id", "t-1"); ("message_id", "m-1");
                   ("answer", "hi")]
      +:+ "," +:+ quoted "created_at" +:+ ":1700000000}".

Definition not_found_text : string :=
  "{" +:+ members [("event", "error"); ("code", "not_found"); ("message", "x")]
      +:+ "," +:+ quoted "status" +:+ ":404}".

Definition chat_reply : httpx_sse.EventSource :=
  reply 200 "text/event-stream; charset=utf-8" ""
    [ sse "ping" ""; sse "message" message_text; sse "error" not_found_text;
      sse "message" message_text ].

Definition client : _clientx.Client :=
  {| _clientx.api_key := "app-key"; _clientx.api_base := "https://api.dify.ai/v1" |}.

End samples.

(** ** _clientx.py: the blocking calls *)

Module blocking.
Import models.

(** The response records of [models/base.py], [feedback.py], [chat.py] and
    [file.py] whose fields are strings, integers and lists of strings.  They
    set no [extra], so entries they do not declare are ignored. *)
Inductive plain_shape :=
  | StopResponse
  | FeedbackResponse
  | ChatSuggestResponse
  | UploadFileResponse.

Definition plain_fields (cls : plain_shape) : list Field :=
  match cls with
  | StopResponse | FeedbackResponse => [ required "result" TStr ]
  | ChatSuggestResponse =>
      [ required "result" TStr; defaulted "data" TListStr (PyList []) ]
  | UploadFileResponse =>
      [ required "id" TStr; required "name" TStr; required "size" TInt;
        required "extension" TStr; required "mime_type" TStr;
        required "created_by" TStr; required "created_at" TInt ]
  end.

Record plain_response := {
  plain_class : plain_shape;
  plain_attrs : gmap string py
}.

Section calls.
Context `{Externals}.

(** The class [cls] called on the unpacked dict [data]. *)
Definition plain_init (cls : plain_shape) (data : gmap string py) : result plain_response :=
  match validate_fields (plain_fields cls) data with
  | Some fs => Ok {| plain_class := cls; plain_attrs := fs |}
  | None => Raise ValidationError
  end.

(** [Client.request], from the reply of the transport on: the reply is
    returned unless [raise_for_status] raises. *)
Definition request (response : httpx.Response) : result httpx.Response :=
  _ ← errors.raise_for_status (inl response);
  Ok response.

(** [cls] called on the unpacked [response.json()]; a body that is not a dict cannot be
    unpacked. *)
Definition from_json (cls : plain_shape) (response : httpx.Response) : result plain_response :=
  body ← httpx.json response;
  match body with
  | PyDict data => plain_init cls data
  | _ => Raise TypeError
  end.

Definition feedback_messages (reply : httpx.Response) : result plain_response :=
  response ← request reply;
  from_json FeedbackResponse response.

Definition suggest_messages (reply : httpx.Response) : result plain_response :=
  response ← request reply;
  from_json ChatSuggestResponse response.

Definition upload_files (reply : httpx.Response) : result plain_response :=
  response ← request reply;
  from_json UploadFileResponse response.

Definition _stop_stream (reply : httpx.Response) : result plain_response :=
  response ← request reply;
  from_json StopResponse response.

End calls.

End blocking.

(** ** _clientx.py: the endpoints and their URLs *)

Module url.

Definition ENDPOINT_FEEDBACKS : string := "/messages/{message_id}/feedbacks".
Definition ENDPOINT_SUGGESTED : string := "/messages/{message_id}/suggested".
Definition ENDPOINT_FILES_UPLOAD : string := "/files/upload".
Definition ENDPOINT_COMPLETION_MESSAGES : string := "/completion-messages".
Definition ENDPOINT_STOP_COMPLETION_MESSAGES : string := "/completion-messages/{task_id}/stop".
Definition ENDPOINT_CHAT_MESSAGES : string := "/chat-messages".
Definition ENDPOINT_STOP_CHAT_MESSAGES : string := "/chat-messages/{task_id}/stop".
Definition ENDPOINT_RUN_WORKFLOWS : string := "/workflows/run".
Definition ENDPOINT_STOP_WORKFLOWS : string := "/workflows/{task_id}/stop".

(** What [template.format] comes to on keyword arguments that are strings.
    [Unmodelled] marks a template outside the fragment modelled here, which
    is plain text with replacement fields [{name}], the name made of letters
    and underscores: brace escapes, conversions, format specifications,
    attribute and index lookups and positional fields are left out.
    [NoneTypeError] is the [TypeError] of adding a string to [None]. *)
Inductive formatted :=
  | Formatted (s : string)
  | KeyError (name : string)
  | NoneTypeError
  | Unmodelled.

Definition is_name_char (c : ascii) : bool :=
  let n := nat_of_ascii c in
  ((65 <=? n)%nat && (n <=? 90)%nat) || ((97 <=? n)%nat && (n <=? 122)%nat)
  || (n =? 95)%nat.

Definition prepend (x : string) (r : formatted) : formatted :=
  match r with
  | Formatted s => Formatted (x +:+ s)
  | _ => r
  end.

(** One pass from left to right; [field] is the name read so far when inside
    a replacement field.  A replaced value is copied, never scanned again. *)
Fixpoint format_from (field : option string) (template : string)
    (kwargs : gmap string string) : formatted :=
  match template with
  | EmptyString =>
      match field with
      | None => Formatted EmptyString
      | Some _ => Unmodelled
      end
  | String c rest =>
      match field with
      | None =>
          if Ascii.eqb c "{" then format_from (Some EmptyString) rest kwargs
          else if Ascii.eqb c "}" then Unmodelled
          else prepend (String c EmptyString) (format_from None rest kwargs)
      | Some name =>
          if Ascii.eqb c "}" then
            match name with
            | EmptyString => Unmodelled
            | _ =>
                match kwargs !! name with
                | Some v => prepend v (format_from None rest kwargs)
                | None => KeyError name
                end
            end
          else if is_name_char c then
            format_from (Some (name +:+ String c EmptyString)) rest kwargs
          else Unmodelled
      end
  end.

Definition format (template : string) (kwargs : gmap string string) : formatted :=
  format_from None template kwargs.

(** [self] enters through [self.api_base] alone, which is declared
    [Optional[str]].  The template is formatted first; then the base is put in
    front, which is a [TypeError] when the base is [None]. *)
Definition _prepare_url (api_base : option string) (endpoint : string)
    (kwargs : gmap string string) : formatted :=
  match format endpoint kwargs with
  | Formatted path =>
      match api_base with
      | Some base => Formatted (base +:+ path)
      | None => NoneTypeError
      end
  | failure => failure
  end.

End url.

(** ** More vocabulary *)

(** The typed events a list of raw events decodes to, up to the first that
    does not decode, and the failure of that one. *)
Fixpoint decode_all `{Externals}
    (build : gmap string py → result models.stream_response)
    (events : list httpx_sse.ServerSentEvent)
    : list models.stream_response * option exn :=
  match events with
  | [] => ([], None)
  | sse :: rest =>
      match _clientx.decode build sse with
      | Raise x => ([], Some x)
      | Ok r => let rest' := decode_all build rest in (r :: rest'.1, rest'.2)
      end
  end.

(** An input that is of the annotated type already, so that validation has
    nothing to convert. *)
Fixpoint exact_type (a : models.annotation) (v : py) : bool :=
  match a with
  | models.TStr => models.is_str v
  | models.TInt => match v with PyInt _ => true | _ => false end
  | models.TOptional inner => match v with PyNone => true | _ => exact_type inner v end
  | models.TListStr => match v with PyList l => forallb models.is_str l | _ => false end
  | models.TNested _ => false
  end.

#[global] Instance DifyErrorClass_eq_dec : EqDecision DifyErrorClass.
Proof. solve_decision. Defined.

Fixpoint has_char (c : ascii) (s : string) : bool :=
  match s with
  | EmptyString => false
  | String c' rest => Ascii.eqb c' c || has_char c rest
  end.

(** No brace in a string. *)
Fixpoint brace_free (s : string) : bool :=
  match s with
  | EmptyString => true
  | String c rest => negb (Ascii.eqb c "{" || Ascii.eqb c "}") && brace_free rest
  end.

Fixpoint is_name (s : string) : bool :=
  match s with
  | EmptyString => true
  | String c rest => url.is_name_char c && is_name rest
  end.

(** * Properties *)

(** ** The enum resolver *)

Section resolver.
Import utils.
Context {M : Type}.
Implicit Types (items : list (string * M)) (v : py) (m : M).

Lemma py_eq_str_true v s : py_eq_str v s = true ↔ v = PyStr s.
Proof.
  destruct v; simpl; try (split; [discriminate | intros [=]]).
  rewrite String.eqb_eq. split; [by intros -> | by intros [=]].
Qed.

Lemma first_match_Some (val : M → string) v items m :
  first_match val v items = Some m → m ∈ items.*2 ∧ v = PyStr (val m).
Proof.
  induction items as [|[key m'] rest IH]; simpl; [done|].
  destruct (py_eq_str v (val m')) eqn:E.
  - intros [= <-]. split; [left | by apply py_eq_str_true].
  - intros Hm. destruct (IH Hm). split; [by right | done].
Qed.

Lemma first_match_None (val : M → string) v items :
  first_match val v items = None ↔ ∀ m, m ∈ items.*2 → v ≠ PyStr (val m).
Proof.
  induction items as [|[key m'] rest IH]; simpl.
  - split; [intros _ m Hm; by apply elem_of_nil in Hm | done].
  - destruct (py_eq_str v (val m')) eqn:E.
    + apply py_eq_str_true in E. split; [done|].
      intros Hno. exfalso. apply (Hno m'); [left | done].
    + rewrite IH. split.
      * intros Hno m [->|Hm]%elem_of_cons; [|by apply Hno].
        intros Heq%py_eq_str_true. congruence.
      * intros Hno m Hm. apply Hno. by right.
Qed.

End resolver.

(** C5. For every enumeration (distinct members carrying distinct values, as
    Python's [Enum] guarantees) and every input string [s]: a member whose value
    is exactly [s] is the one returned, in either mode; when no member's value
    is [s], strict mode raises a [ValueError] that carries [s] and tolerant mode
    returns the caller's default. *)
Theorem str_to_enum_resolves {M D : Type} (cls : utils.EnumClass M) (s : string) (dflt : D) :
  (∀ m1 m2, m1 ∈ (utils.members cls).*2 → m2 ∈ (utils.members cls).*2 →
     utils.value cls m1 = utils.value cls m2 → m1 = m2) →
  (∀ m ignore, m ∈ (utils.members cls).*2 → utils.value cls m = s →
     utils.str_to_enum cls (PyStr s) ignore dflt = Ok (inl m)) ∧
  ((∀ m, m ∈ (utils.members cls).*2 → utils.value cls m ≠ s) →
     utils.str_to_enum cls (PyStr s) false dflt
       = Raise (ValueError "Invalid enum value: " (PyStr s)) ∧
     utils.str_to_enum cls (PyStr s) true dflt = Ok (inr dflt)).
Proof.
  intros Hinj. split.
  - intros m ignore Hm Hv. unfold utils.str_to_enum.
    destruct (utils.first_match _ _ _) as [m'|] eqn:E.
    + apply first_match_Some in E as [Hm' [= Hv']].
      rewrite (Hinj m m'); [done..|congruence].
    + exfalso. eapply first_match_None; [done..|by rewrite Hv].
  - intros Hno. unfold utils.str_to_enum.
    assert (utils.first_match (utils.value cls) (PyStr s) (utils.members cls) = None) as ->; [|done].
    apply first_match_None. intros m Hm [= Hv]. by eapply Hno.
Qed.

Lemma StreamEvent_values_distinct (m1 m2 : models.StreamEvent.t) :
  models.StreamEvent.value m1 = models.StreamEvent.value m2 → m1 = m2.
Proof. destruct m1, m2; simpl; (done || discriminate). Qed.

Lemma StreamEvent_members_all (m : models.StreamEvent.t) :
  m ∈ models.StreamEvent.members.*2.
Proof. destruct m; simpl; set_solver. Qed.

Lemma str_to_enum_resolves_witness :
  utils.str_to_enum models.StreamEvent.cls (PyStr "ping") false PyNone
    = Ok (inl models.StreamEvent.PING) ∧
  utils.str_to_enum models.StreamEvent.cls (PyStr "ping") true PyNone
    = Ok (inl models.StreamEvent.PING).
Proof.
  pose proof (str_to_enum_resolves models.StreamEvent.cls "ping" PyNone
    (λ m1 m2 _ _, StreamEvent_values_distinct m1 m2)) as [Hfound _].
  split; apply Hfound; first [apply StreamEvent_members_all | reflexivity].
Defined.

(** Matching is case-sensitive: the member's name, or its value in capitals,
    is not its value. *)
Example str_to_enum_case_sensitive :
  utils.str_to_enum models.StreamEvent.cls (PyStr "PING") false PyNone
    = Raise (ValueError "Invalid enum value: " (PyStr "PING")) ∧
  utils.str_to_enum models.StreamEvent.cls (PyStr "Ping") true (PyStr "fallback")
    = Ok (inr (PyStr "fallback")).
Proof. split; reflexivity. Qed.

(** ** The tag resolver *)

Lemma new_known (e : models.StreamEvent.t) :
  models.StreamEvent.new (inr (PyStr (models.StreamEvent.value e))) = Ok (inl e).
Proof. by destruct e. Qed.

Lemma new_Ok (x y : models.StreamEvent.t + py) :
  models.StreamEvent.new x = Ok y →
  ∃ e, y = inl e ∧ (x = inl e ∨ x = inr (PyStr (models.StreamEvent.value e))).
Proof.
  destruct x as [e|v]; simpl.
  - intros [= <-]. eauto.
  - unfold utils.str_to_enum.
    destruct (utils.first_match _ _ _) as [m|] eqn:E; [|done].
    intros [= <-]. apply first_match_Some in E as [_ ->]. eauto.
Qed.

Lemma new_unknown (v : py) :
  (∀ e, v ≠ PyStr (models.StreamEvent.value e)) →
  models.StreamEvent.new (inr v) = Raise (ValueError "Invalid enum value: " v).
Proof.
  intros Hno. simpl. unfold utils.str_to_enum.
  assert (utils.first_match (utils.value models.StreamEvent.cls) v
            (utils.members models.StreamEvent.cls) = None) as ->; [|done].
  apply first_match_None. intros m _. apply Hno.
Qed.

(** C8. [StreamEvent.new] returns an already resolved tag unchanged, and
    resolving twice is resolving once: whatever the first call returns, the
    second returns again. *)
Theorem new_idempotent :
  (∀ e, models.StreamEvent.new (inl e) = Ok (inl e)) ∧
  (∀ x, models.StreamEvent.new x ≫= models.StreamEvent.new = models.StreamEvent.new x) ∧
  (∀ s y, models.StreamEvent.new (inr (PyStr s)) = Ok y → models.StreamEvent.new y = Ok y).
Proof.
  split; [done|]. split.
  - intros x. destruct (models.StreamEvent.new x) as [y|err] eqn:E; [|done].
    apply new_Ok in E as (e & -> & _). done.
  - intros s y (e & -> & _)%new_Ok. done.
Qed.

Lemma new_idempotent_witness :
  models.StreamEvent.new (inr (PyStr "message")) = Ok (inl models.StreamEvent.MESSAGE) ∧
  models.StreamEvent.new (inl models.StreamEvent.MESSAGE) = Ok (inl models.StreamEvent.MESSAGE).
Proof.
  split; [reflexivity|].
  apply (proj2 (proj2 new_idempotent) "message"). reflexivity.
Defined.

(** ** The stream event dispatcher *)

Section dispatcher.
Import models.
Context `{Externals}.
Implicit Types (data : gmap string py) (f : family) (e : StreamEvent.t) (cls : shape).

Lemma build_unfold f data :
  build f data =
    (event ← StreamEvent.new (inr (default PyNone (data !! STREAM_EVENT_KEY)));
     instantiate (mapping_get (table f) event StreamResponse) data).
Proof. by destruct f. Qed.

(** The tables of the code are the tables of the specification. *)
Lemma table_declared f e :
  mapping_get (table f) (inl e) StreamResponse
    = default StreamResponse (declared_shape f e).
Proof. by destruct f, e. Qed.

Lemma table_entries f e cls :
  declared_shape f e = Some cls ↔ (e, cls) ∈ table f.
Proof.
  split.
  - destruct f, e; intros [= <-]; simpl; set_solver.
  - intros Hin. destruct f; simpl in Hin; set_unfold;
      repeat (destruct Hin as [[= -> ->]|Hin]; [reflexivity|]); done.
Qed.

Lemma validate_event_known data e :
  data !! "event" = Some (PyStr (StreamEvent.value e)) →
  validate_event (data !! "event") = Some e.
Proof.
  intros ->. unfold validate_event, transform_stream_event.
  by rewrite new_known.
Qed.

Lemma validate_task_id_acceptable data :
  is_Some (validate_task_id (data !! "task_id")) ↔ task_id_acceptable data.
Proof.
  unfold task_id_acceptable, validate_task_id.
  destruct (data !! "task_id") as [[]|]; simpl; split; try done;
    by intros [? [=]].
Qed.

Lemma instantiate_Ok cls data r :
  instantiate cls data = Ok r →
  class_of r = cls ∧
  validate_event (data !! "event") = Some (event r) ∧
  validate_task_id (data !! "task_id") = Some (task_id r) ∧
  validate_fields (own_fields cls) data = Some (attrs r) ∧
  model_extra r = extra_of (declared_names cls) data.
Proof.
  unfold instantiate.
  destruct (validate_event _), (validate_task_id _), (validate_fields _ _);
    intros [= <-]; done.
Qed.

Lemma instantiate_succeeds cls data e :
  data !! "event" = Some (PyStr (StreamEvent.value e)) →
  task_id_acceptable data →
  is_Some (validate_fields (own_fields cls) data) →
  ∃ r, instantiate cls data = Ok r ∧ class_of r = cls ∧ event r = e.
Proof.
  intros He [t Ht]%validate_task_id_acceptable [fs Hfs].
  unfold instantiate. rewrite (validate_event_known _ _ He), Ht, Hfs. eauto.
Qed.

(** What [extra='allow'] keeps: the entries whose key is not declared. *)
Lemma lookup_extra_of (names : list string) data k :
  extra_of names data !! k = if decide (k ∈ names) then None else data !! k.
Proof.
  induction names as [|n names IH]; unfold extra_of in *; cbn [foldr].
  - destruct (decide (k ∈ [])) as [Hin|]; [by apply elem_of_nil in Hin | done].
  - destruct (decide (k ∈ n :: names)) as [Hin|Hin].
    + destruct (decide (n = k)) as [->|Hne]; [by rewrite lookup_delete_eq|].
      rewrite lookup_delete_ne, IH by done.
      apply elem_of_cons in Hin as [->|Hin]; [done|]. by rewrite decide_True.
    + apply not_elem_of_cons in Hin as [Hne Hin].
      rewrite lookup_delete_ne, IH by done. by rewrite decide_False.
Qed.

Lemma extra_of_insert (names : list string) data k v :
  k ∉ names → extra_of names (<[k := v]> data) = <[k := v]> (extra_of names data).
Proof.
  intros Hk. apply map_eq. intros j.
  rewrite lookup_extra_of. destruct (decide (k = j)) as [<-|Hne].
  - rewrite !lookup_insert_eq. by rewrite decide_False.
  - rewrite !lookup_insert_ne by done. by rewrite lookup_extra_of.
Qed.

Lemma validate_fields_insert (fields : list Field) data k v :
  k ∉ field_name <$> fields →
  validate_fields fields (<[k := v]> data) = validate_fields fields data.
Proof.
  induction fields as [|fd rest IH]; simpl; [done|].
  intros [Hne Hrest]%not_elem_of_cons.
  rewrite lookup_insert_ne by done. by rewrite IH.
Qed.

(** C10. A payload without an [event] key makes each of the three dispatchers
    fail in the strict resolver: the absent field reads as [None], no tag has
    that value, and the [ValueError] of [str_to_enum] is what the caller gets,
    not a passthrough event. *)
Theorem missing_event_fails f data :
  data !! "event" = None →
  build f data = Raise (ValueError "Invalid enum value: " PyNone).
Proof. intros Hnone. rewrite build_unfold. unfold STREAM_EVENT_KEY. by rewrite Hnone. Qed.

(** C1 (amended). A payload whose tag [e] is a known discriminator is decoded
    as the shape the family's table declares for [e], and as the generic
    [StreamResponse] when the table has no entry for [e]: the dispatcher
    returns exactly what validating the payload against that shape returns, an
    instance of it whenever the [task_id] is acceptable and the shape's own
    fields validate.  For a tag absent from the table this means: with an
    acceptable [task_id] the dispatch cannot fail, and the instance holds the
    tag, the [task_id] and every other entry of the payload as extra data. *)
Theorem dispatch_declared_shape f data e :
  data !! "event" = Some (PyStr (StreamEvent.value e)) →
  let cls := default StreamResponse (declared_shape f e) in
  build f data = instantiate cls data ∧
  (∀ r, build f data = Ok r → class_of r = cls ∧ event r = e) ∧
  (task_id_acceptable data → is_Some (validate_fields (own_fields cls) data) →
     ∃ r, build f data = Ok r ∧ class_of r = cls ∧ event r = e) ∧
  (declared_shape f e = None → task_id_acceptable data →
     ∃ r, build f data = Ok r ∧ class_of r = StreamResponse ∧ event r = e ∧
          validate_task_id (data !! "task_id") = Some (task_id r) ∧
          attrs r = ∅ ∧
          model_extra r = delete "event" (delete "task_id" data)).
Proof.
  intros He cls.
  assert (build f data = instantiate cls data) as Hbuild.
  { rewrite build_unfold. unfold STREAM_EVENT_KEY. rewrite He. simpl default.
    rewrite new_known. simpl. by rewrite table_declared. }
  split; [done|]. rewrite Hbuild. split; [|split].
  - intros r (Hc & Hev & _)%instantiate_Ok. split; [done|].
    rewrite (validate_event_known _ _ He) in Hev. congruence.
  - intros Ht Hfs. by apply instantiate_succeeds.
  - intros Hnone Ht. subst cls. rewrite Hnone. simpl.
    destruct (instantiate_succeeds StreamResponse data e He Ht) as (r & Hr & Hc & Hev);
      [by eexists|].
    exists r. apply instantiate_Ok in Hr as Hr'.
    destruct Hr' as (_ & _ & Htid & Hattrs & Hextra). simpl in Hattrs.
    split_and!; [done..|congruence|done].
Qed.

Lemma extra_is_undeclared f data r j :
  build f data = Ok r →
  j ∉ declared_names (class_of r) → model_extra r !! j = data !! j.
Proof.
  rewrite build_unfold. destruct (StreamEvent.new _) as [y|]; [simpl|done].
  intros (Hc & _ & _ & _ & Hextra)%instantiate_Ok Hj.
  rewrite Hextra, lookup_extra_of, decide_False; [done | by rewrite <- Hc].
Qed.

(** One more undeclared entry in the payload is one more entry in the extra
    data of the same instance. *)
Lemma build_insert_extra f data r k v :
  build f data = Ok r →
  k ∉ declared_names (class_of r) →
  build f (<[k := v]> data)
    = Ok {| class_of := class_of r; event := event r; task_id := task_id r;
            attrs := attrs r; model_extra := <[k := v]> (model_extra r) |}.
Proof.
  rewrite !build_unfold. unfold STREAM_EVENT_KEY.
  intros Hr Hk.
  assert (k ≠ "event") as Hev by (intros ->; apply Hk; left).
  assert (k ≠ "task_id") as Htid by (intros ->; apply Hk; right; left).
  rewrite lookup_insert_ne by done.
  destruct (StreamEvent.new _) as [y|]; [simpl in *|done].
  apply instantiate_Ok in Hr as Hr'.
  destruct Hr' as (Hc & He & Ht & Hfs & Hextra).
  rewrite Hc in Hk. unfold instantiate.
  rewrite !lookup_insert_ne, He, Ht by done.
  rewrite validate_fields_insert, Hfs
    by (intros Hin; apply Hk; right; right; done).
  by rewrite extra_of_insert, <- Hextra, Hc.
Qed.

(** C6. Once a payload decodes, adding entries under keys its shape does not
    declare cannot make the decode fail, however many and whatever their
    values: the result is the same instance with the added entries among its
    extra data.  And the extra data of a decoded event are exactly the
    payload's entries under undeclared keys. *)
Theorem extra_fields_preserved f data r (more : gmap string py) :
  build f data = Ok r →
  (∀ k, is_Some (more !! k) → k ∉ declared_names (class_of r)) →
  build f (more ∪ data)
    = Ok {| class_of := class_of r; event := event r; task_id := task_id r;
            attrs := attrs r; model_extra := more ∪ model_extra r |} ∧
  (∀ j, j ∉ declared_names (class_of r) → model_extra r !! j = data !! j).
Proof.
  intros Hr Hmore. split; [|intros j; by apply (extra_is_undeclared f)].
  induction more as [|k v more Hfresh IH] using map_ind.
  - rewrite !(left_id_L ∅ (∪)). by destruct r.
  - rewrite <- (insert_union_l more data), <- (insert_union_l more (model_extra r)).
    assert (∀ j, is_Some (more !! j) → j ∉ declared_names (class_of r)) as Hrest.
    { intros j Hj. apply Hmore.
      destruct (decide (k = j)) as [->|Hne]; [by rewrite lookup_insert_eq|].
      by rewrite lookup_insert_ne. }
    assert (k ∉ declared_names (class_of r)) as Hk
      by (apply Hmore; by rewrite lookup_insert_eq).
    exact (build_insert_extra f (more ∪ data) _ k v (IH Hrest) Hk).
Qed.

End dispatcher.

Lemma missing_event_fails_witness :
  build (H := reference) chat {["task_id" := PyStr "t-1"]}
    = Raise (ValueError "Invalid enum value: " PyNone).
Proof. apply missing_event_fails. vm_compute. reflexivity. Defined.

Lemma dispatch_declared_shape_witness :
  (∃ r, build (H := reference) completion samples.message_payload = Ok r ∧
        models.class_of r = models.MessageStreamResponse ∧
        models.event r = models.StreamEvent.MESSAGE) ∧
  (∃ r, build (H := reference) workflow samples.message_payload = Ok r ∧
        models.class_of r = models.StreamResponse ∧
        models.event r = models.StreamEvent.MESSAGE ∧
        models.model_extra r !! "answer" = Some (PyStr "hi")).
Proof.
  split.
  - apply (dispatch_declared_shape (H := reference) completion samples.message_payload
             models.StreamEvent.MESSAGE eq_refl).
    + vm_compute. exact I.
    + vm_compute. eexists. reflexivity.
  - destruct (dispatch_declared_shape (H := reference) workflow samples.message_payload
                models.StreamEvent.MESSAGE eq_refl) as (_ & _ & _ & Hgeneric).
    destruct Hgeneric as (r & Hr & Hc & He & _ & _ & Hx); [reflexivity | vm_compute; exact I |].
    exists r. split_and!; [done..|]. rewrite Hx. vm_compute. reflexivity.
Defined.

(** C1, as stated, fails: [agent_message] has no entry in the completion
    table, and yet the dispatch of this payload raises, because the generic
    shape validates [task_id] as [Optional[str]] and the payload gives a
    number. *)
Lemma generic_passthrough_can_fail :
  declared_shape completion models.StreamEvent.AGENT_MESSAGE = None ∧
  build (H := reference) completion samples.numeric_task_id = Raise ValidationError.
Proof. split; vm_compute; reflexivity. Qed.

Lemma extra_fields_preserved_witness :
  build (H := reference) chat samples.message_payload = Ok samples.message_event ∧
  build (H := reference) chat
      (list_to_map [("trace_id", PyInt 7); ("from_variable_selector", PyList [PyStr "llm"])]
       ∪ samples.message_payload)
    = Ok {| models.class_of := models.MessageStreamResponse;
            models.event := models.StreamEvent.MESSAGE;
            models.task_id := Some "t-1";
            models.attrs := samples.message_attrs;
            models.model_extra :=
              list_to_map [("trace_id", PyInt 7);
                           ("from_variable_selector", PyList [PyStr "llm"])] ∪ ∅ |}.
Proof.
  assert (build (H := reference) chat samples.message_payload = Ok samples.message_event)
    as Hr by (vm_compute; reflexivity).
  split; [exact Hr|].
  apply (extra_fields_preserved (H := reference) chat samples.message_payload
           samples.message_event _ Hr).
  intros k [v Hk]. cbn [list_to_map foldr uncurry curry] in Hk.
  apply lookup_insert_Some in Hk as [[<- _]|[_ Hk]].
  { apply (bool_decide_unpack _). vm_compute. reflexivity. }
  apply lookup_insert_Some in Hk as [[<- _]|[_ Hk]].
  { apply (bool_decide_unpack _). vm_compute. reflexivity. }
  by rewrite lookup_empty in Hk.
Defined.

(** ** The failure classifier *)

(** The fixed table: sixteen codes, each with a failure kind of its own. *)
Lemma SPEC_CODE_ERRORS_entries :
  map_to_list errors.SPEC_CODE_ERRORS ≡ₚ
    [ ("invalid_param", DifyInvalidParam);
      ("not_chat_app", DifyNotChatApp);
      ("app_unavailable", DifyAppUnavailable);
      ("provider_not_initialize", DifyProviderNotInitialize);
      ("provider_quota_exceeded", DifyProviderQuotaExceeded);
      ("model_currently_not_support", DifyModelCurrentlyNotSupport);
      ("completion_request_error", DifyCompletionRequestError);
      ("no_file_uploaded", DifyNoFileUploaded);
      ("too_many_files", DifyTooManyFiles);
      ("unsupported_preview", DifyUnsupportedPreview);
      ("unsupported_estimate", DifyUnsupportedEstimate);
      ("file_too_large", DifyFileTooLarge);
      ("unsupported_file_type", DifyUnsupportedFileType);
      ("s3_connection_failed", DifyS3ConnectionFailed);
      ("s3_permission_denied", DifyS3PermissionDenied);
      ("s3_file_too_large", DifyS3FileTooLarge) ].
Proof.
  unfold errors.SPEC_CODE_ERRORS. apply map_to_list_to_map.
  apply (bool_decide_unpack _). vm_compute. reflexivity.
Qed.

(** C2. The classifier, on any triple: 404 is the not-found kind and 500 the
    internal-server-error kind whatever the code; any other status takes the
    kind the table gives the code, or the generic kind when the table has none;
    and the failure always carries the three fields as they came. *)
Theorem classify_policy (s : Z) (c m : string) :
  let failure := errors.classify {| models.status := s; models.code := c; models.message := m |} in
  (s = 404 → failure = DifyError DifyResourceNotFound s c m) ∧
  (s ≠ 404 → s = 500 → failure = DifyError DifyInternalServerError s c m) ∧
  (s ≠ 404 → s ≠ 500 → ∀ cls, errors.SPEC_CODE_ERRORS !! c = Some cls →
     failure = DifyError cls s c m) ∧
  (s ≠ 404 → s ≠ 500 → errors.SPEC_CODE_ERRORS !! c = None →
     failure = DifyError DifyAPIError s c m) ∧
  (∃ cls, failure = DifyError cls s c m).
Proof.
  unfold errors.classify, HTTPStatus.NOT_FOUND, HTTPStatus.INTERNAL_SERVER_ERROR.
  cbn [models.status models.code models.message].
  destruct (Z.eqb_spec s 404) as [->|Hn404].
  { split_and!; try done. by eexists. }
  destruct (Z.eqb_spec s 500) as [->|Hn500].
  { split_and!; try done. by eexists. }
  split_and!; try done.
  - by intros _ _ cls ->.
  - by intros _ _ ->.
  - by eexists.
Qed.

Lemma classify_policy_witness :
  errors.classify {| models.status := 404; models.code := "invalid_param"; models.message := "x" |}
    = DifyError DifyResourceNotFound 404 "invalid_param" "x" ∧
  errors.classify {| models.status := 500; models.code := "invalid_param"; models.message := "x" |}
    = DifyError DifyInternalServerError 500 "invalid_param" "x" ∧
  errors.classify {| models.status := 400; models.code := "invalid_param"; models.message := "x" |}
    = DifyError DifyInvalidParam 400 "invalid_param" "x" ∧
  errors.classify {| models.status := 400; models.code := "not_found"; models.message := "x" |}
    = DifyError DifyAPIError 400 "not_found" "x".
Proof.
  split_and!.
  - destruct (classify_policy 404 "invalid_param" "x") as (Hnf & _). by apply Hnf.
  - destruct (classify_policy 500 "invalid_param" "x") as (_ & Hise & _). by apply Hise.
  - destruct (classify_policy 400 "invalid_param" "x") as (_ & _ & Hknown & _).
    apply Hknown; [lia | lia | vm_compute; reflexivity].
  - destruct (classify_policy 400 "not_found" "x") as (_ & _ & _ & Hother & _).
    apply Hother; [lia | lia | vm_compute; reflexivity].
Defined.

Section raising.
Import models.
Context `{Externals}.

Lemma raise_for_status_event_passes (sse : httpx_sse.ServerSentEvent) :
  httpx_sse.event sse ≠ "error" → errors.raise_for_status (inr sse) = Ok tt.
Proof.
  intros Hne. simpl. destruct (String.eqb_spec (httpx_sse.event sse) "error"); done.
Qed.

(** For an error-tagged event every path of [raise_for_status] ends in a
    [raise]. *)
Lemma raise_for_status_event_raises (sse : httpx_sse.ServerSentEvent) :
  httpx_sse.event sse = "error" → ∃ e, errors.raise_for_status (inr sse) = Raise e.
Proof.
  intros Htag. simpl. rewrite Htag. simpl.
  destruct (httpx_sse.json sse) as [payload|]; simpl; [|by eexists].
  destruct (errors.event_details payload); simpl; by eexists.
Qed.

(** So does every path for a response that is not a success. *)
Lemma raise_for_status_response_raises (r : httpx.Response) :
  httpx.is_success r = false → ∃ e, errors.raise_for_status (inl r) = Raise e.
Proof.
  intros Hfail. simpl. rewrite Hfail.
  destruct (httpx.json r) as [body|]; simpl; [|by eexists].
  destruct (errors.response_details r body); simpl; by eexists.
Qed.

(** C9 (amended). An error-tagged event whose payload is a JSON object
    without [status]: when the payload validates as an error stream event, it
    decodes with status 500, the field's default, nothing puts another status
    in its place, and the failure raised is the internal-server-error kind with
    status 500, whatever the payload's code, known to the table or not; when
    the payload does not validate, the validation error is what is raised.
    Either way no other kind of classified failure can come out. *)
Theorem error_event_without_status (sse : httpx_sse.ServerSentEvent)
    (json : gmap string py) :
  httpx_sse.event sse = "error" →
  json_loads (httpx_sse.data sse) = Some (PyDict json) →
  json !! "status" = None →
  (∀ e, ErrorStreamResponse_init json = Ok e →
     status (details e) = 500 ∧
     errors.raise_for_status (inr sse)
       = Raise (DifyError DifyInternalServerError 500
                  (code (details e)) (message (details e)))) ∧
  (∀ x, ErrorStreamResponse_init json = Raise x →
     errors.raise_for_status (inr sse) = Raise ValidationError) ∧
  (∀ cls s c m, errors.raise_for_status (inr sse) = Raise (DifyError cls s c m) →
     cls = DifyInternalServerError ∧ s = 500).
Proof.
  intros Htag Hjson Hstatus.
  assert (errors.raise_for_status (inr sse)
          = (e ← ErrorStreamResponse_init json; Raise (errors.classify (details e))))
    as Hraise.
  { cbn [errors.raise_for_status]. rewrite Htag. simpl negb. cbn match.
    unfold httpx_sse.json. rewrite Hjson. cbn [or_raise mbind result_bind].
    unfold errors.event_details. by destruct (ErrorStreamResponse_init json). }
  assert (∀ e, ErrorStreamResponse_init json = Ok e → status (details e) = 500) as H500.
  { intros e He. unfold ErrorStreamResponse_init, ErrorResponse_init in He.
    rewrite Hstatus in He. simpl in He. repeat (case_match; try done). by simplify_eq. }
  assert (∀ x, ErrorStreamResponse_init json = Raise x → x = ValidationError) as Hinvalid.
  { intros x Hx. unfold ErrorStreamResponse_init in Hx.
    repeat (case_match; try done); by simplify_eq. }
  rewrite Hraise. split_and!.
  - intros e He. split; [by apply H500|]. rewrite He. cbn [mbind result_bind].
    unfold errors.classify. by rewrite (H500 e He).
  - intros x Hx. rewrite Hx. cbn [mbind result_bind]. by rewrite (Hinvalid x Hx).
  - intros cls s c m. destruct (ErrorStreamResponse_init json) as [e|x] eqn:He;
      cbn [mbind result_bind].
    + unfold errors.classify. rewrite (H500 e eq_refl). simpl. by intros [= <- <- _ _].
    + rewrite (Hinvalid x eq_refl). discriminate.
Qed.

End raising.

Lemma error_event_without_status_witness :
  errors.raise_for_status (H := reference) (inr samples.error_without_status)
    = Raise (DifyError DifyInternalServerError 500 "invalid_param" "bad input") ∧
  errors.SPEC_CODE_ERRORS !! "invalid_param" = Some DifyInvalidParam.
Proof.
  split; [|vm_compute; reflexivity].
  destruct (error_event_without_status (H := reference) samples.error_without_status
    (list_to_map [("event", PyStr "error"); ("code", PyStr "invalid_param");
                  ("message", PyStr "bad input")])) as (Hdecoded & _);
    [reflexivity | vm_compute; reflexivity | vm_compute; reflexivity |].
  apply (Hdecoded
    {| models.error_event := models.StreamEvent.ERROR;
       models.error_task_id := Some "";
       models.details := {| models.status := 500; models.code := "invalid_param";
                            models.message := "bad input" |};
       models.message_id := Some "";
       models.error_extra := ∅ |}).
  vm_compute. reflexivity.
Defined.

(** C9, as stated, fails: these two error-tagged events have payloads
    without [status], and neither ends in the internal-server-error failure.
    The first payload has no [event] entry, which the error stream shape
    requires; the second gives a number for [code], which is declared a
    string.  Both are refused by validation, and that error is what the
    caller gets. *)
Lemma error_event_without_status_can_fail_validation :
  errors.raise_for_status (H := reference)
    (inr (samples.sse "error"
            (samples.object [("code", "invalid_param"); ("message", "bad input")])))
    = Raise ValidationError ∧
  errors.raise_for_status (H := reference)
    (inr (samples.sse "error"
            ("{" +:+ samples.members [("event", "error")] +:+ ","
                 +:+ json_lite.quoted "code" +:+ ":7}")))
    = Raise ValidationError.
Proof. split; vm_compute; reflexivity. Qed.

(** ** Request headers *)

Section headers.
Import _clientx.
Implicit Types (headers : gmap string string) (self : Client).

Lemma str_in_singleton (x y : string) : str_in x [y] = true ↔ x = y.
Proof. unfold str_in. simpl. rewrite orb_false_r. apply String.eqb_eq. Qed.

Lemma has_authorization headers :
  str_in "authorization" (str.lower <$> (map_to_list headers).*1) = true ↔
  ∃ k, is_Some (headers !! k) ∧ str.lower k = "authorization".
Proof.
  unfold str_in. rewrite existsb_exists. split.
  - intros (x & Hin & Heq%String.eqb_eq). subst x.
    apply list_elem_of_In, list_elem_of_fmap in Hin as (k & Hk & Hin).
    apply list_elem_of_fmap in Hin as ([k' v] & -> & Hkv%elem_of_map_to_list).
    exists k'. split; [by eexists | done].
  - intros (k & [v Hv] & Hk). exists (str.lower k). split; [|by apply String.eqb_eq].
    apply list_elem_of_In, list_elem_of_fmap. exists k. split; [done|].
    apply list_elem_of_fmap. exists (k, v). split; [done|].
    by apply elem_of_map_to_list.
Qed.

Lemma merged_headers_own self headers :
  merged_headers self (Some headers) = _prepare_auth_headers self headers.
Proof.
  unfold merged_headers. case_bool_decide as He; [by subst|].
  by rewrite (right_id_L ∅ (∪)).
Qed.

(** C7. Header preparation leaves a map that has a key equal to
    [authorization] up to case as it is; to any other map it adds one entry,
    [Authorization] with the bearer token, under a key the map did not have;
    and either way every entry of the caller keeps its key and value.  In
    [request] and [request_stream] it is applied to the caller's own map. *)
Theorem prepare_auth_headers_frame self headers :
  ((∃ k, is_Some (headers !! k) ∧ str.lower k = "authorization") →
     _prepare_auth_headers self headers = headers) ∧
  ((∀ k, is_Some (headers !! k) → str.lower k ≠ "authorization") →
     headers !! "Authorization" = None ∧
     _prepare_auth_headers self headers
       = <["Authorization" := "Bearer " +:+ api_key self]> headers ∧
     size (_prepare_auth_headers self headers) = S (size headers)) ∧
  (∀ k v, headers !! k = Some v → _prepare_auth_headers self headers !! k = Some v) ∧
  merged_headers self (Some headers) = _prepare_auth_headers self headers.
Proof.
  rewrite merged_headers_own. unfold _prepare_auth_headers.
  destruct (str_in _ _) eqn:E; simpl.
  - apply has_authorization in E. split_and!; try done.
    intros Hno. destruct E as (k & Hk & Hlow). by destruct (Hno k Hk).
  - assert (∀ k, is_Some (headers !! k) → str.lower k ≠ "authorization") as Hno.
    { intros k Hk Hlow. assert (str_in "authorization"
        (str.lower <$> (map_to_list headers).*1) = true) as Hin
        by (apply has_authorization; eauto). congruence. }
    assert (headers !! "Authorization" = None) as Hfresh.
    { destruct (headers !! "Authorization") eqn:Hl; [|done].
      destruct (Hno "Authorization"); [by eexists | reflexivity]. }
    split_and!; try done.
    + intros Hyes. destruct Hyes as (k & Hk & Hlow). by destruct (Hno k Hk).
    + intros _. split_and!; [done..|]. by apply map_size_insert_None.
    + intros k v Hk. rewrite lookup_insert_ne; [done|]. congruence.
Qed.

End headers.

Lemma prepare_auth_headers_frame_witness :
  _clientx._prepare_auth_headers samples.client {["AUTHORIZATION" := "Basic abc"]}
    = {["AUTHORIZATION" := "Basic abc"]} ∧
  _clientx._prepare_auth_headers samples.client {["Accept" := "text/event-stream"]}
    = <["Authorization" := "Bearer app-key"]> {["Accept" := "text/event-stream"]} ∧
  _clientx._prepare_auth_headers samples.client {["Accept" := "text/event-stream"]} !! "Accept"
    = Some "text/event-stream".
Proof.
  destruct (prepare_auth_headers_frame samples.client {["AUTHORIZATION" := "Basic abc"]})
    as (Hkeep & _).
  destruct (prepare_auth_headers_frame samples.client {["Accept" := "text/event-stream"]})
    as (_ & Hadd & Hframe & _).
  split_and!.
  - apply Hkeep. exists "AUTHORIZATION". split; [|reflexivity].
    exists "Basic abc". apply lookup_singleton_eq.
  - apply Hadd. intros k [v Hk]. apply lookup_singleton_Some in Hk as [<- _]. discriminate.
  - apply Hframe. apply lookup_singleton_eq.
Defined.

(** ** The streaming pipeline *)

Section pipeline.
Import _clientx.
Context `{Externals}.
Implicit Types (sse : httpx_sse.ServerSentEvent) (events : list httpx_sse.ServerSentEvent).

Lemma ignored_is_ping sse :
  str_in (httpx_sse.event sse) IGNORED_STREAM_EVENTS
    || str_in (httpx_sse.data sse) IGNORED_STREAM_EVENTS = true ↔ is_ping sse.
Proof.
  unfold IGNORED_STREAM_EVENTS, is_ping.
  rewrite orb_true_iff, !str_in_singleton. done.
Qed.

Lemma sse_loop_error sse rest :
  error_tagged sse → ∃ e, sse_loop (sse :: rest) = ([], Raised e).
Proof.
  intros Htag. destruct (raise_for_status_event_raises sse Htag) as [e He].
  exists e. cbn [sse_loop]. by rewrite He.
Qed.

Lemma sse_loop_ping sse rest :
  ¬ error_tagged sse → is_ping sse → sse_loop (sse :: rest) = sse_loop rest.
Proof.
  intros Htag Hping. cbn [sse_loop].
  rewrite (raise_for_status_event_passes sse Htag).
  apply ignored_is_ping in Hping. by rewrite Hping.
Qed.

Lemma sse_loop_yield sse rest :
  ¬ error_tagged sse → ¬ is_ping sse →
  sse_loop (sse :: rest) = then_run [Yield sse] (sse_loop rest).
Proof.
  intros Htag Hping. cbn [sse_loop].
  rewrite (raise_for_status_event_passes sse Htag).
  destruct (_ || _) eqn:E; [|done]. by apply ignored_is_ping in E.
Qed.

Lemma sse_loop_survivors events :
  (sse_loop events).1 = Yield <$> survivors events.
Proof.
  unfold survivors. induction events as [|sse rest IH]; [done|].
  cbn [until_error]. destruct (decide (error_tagged sse)) as [Htag|Htag].
  - destruct (sse_loop_error sse rest Htag) as [e ->]. done.
  - destruct (decide (is_ping sse)) as [Hping|Hping].
    + rewrite sse_loop_ping, filter_cons_False by auto. done.
    + rewrite sse_loop_yield, filter_cons_True by done. simpl. by rewrite IH.
Qed.

Lemma survivors_sublist events : survivors events `sublist_of` events.
Proof.
  unfold survivors. etrans; [apply sublist_filter|].
  induction events as [|sse rest IH]; [done|]. cbn [until_error].
  destruct (decide (error_tagged sse)); [apply sublist_nil_l | by apply sublist_skip].
Qed.

Lemma sse_loop_ending events :
  (sse_loop events).2 = StopIteration ↔ ∀ sse, sse ∈ events → ¬ error_tagged sse.
Proof.
  induction events as [|sse rest IH].
  { split; [intros _ sse Hin; by apply elem_of_nil in Hin | done]. }
  destruct (decide (error_tagged sse)) as [Htag|Htag].
  - destruct (sse_loop_error sse rest Htag) as [e ->]. split; [done|].
    intros Hall. destruct (Hall sse); [left | done].
  - assert ((sse_loop (sse :: rest)).2 = (sse_loop rest).2) as ->.
    { destruct (decide (is_ping sse));
        [by rewrite sse_loop_ping | by rewrite sse_loop_yield]. }
    rewrite IH. split.
    + intros Hall x [->|Hin]%elem_of_cons; [done | by apply Hall].
    + intros Hall x Hin. apply Hall. by right.
Qed.

(** C3 (amended). In the loop over the raw events the error check comes
    first.  An event tagged [ping], and an event whose data is [ping] and whose
    tag is not [error], is dropped: nothing is yielded or raised for it and the
    run goes on as if it had not come.  An event tagged [error] ends the run
    with a failure whatever its data.  What the run yields is, in arrival
    order, every event before the first error-tagged one that is not a ping,
    and the run ends without failure exactly when no event is tagged
    [error]. *)
Theorem ping_dropped_after_error_check events :
  (∀ sse rest,
     httpx_sse.event sse = "ping" ∨
     (httpx_sse.data sse = "ping" ∧ httpx_sse.event sse ≠ "error") →
     sse_loop (sse :: rest) = sse_loop rest) ∧
  (∀ sse rest, httpx_sse.event sse = "error" →
     ∃ e, sse_loop (sse :: rest) = ([], Raised e)) ∧
  (sse_loop events).1 = Yield <$> survivors events ∧
  survivors events `sublist_of` events ∧
  ((sse_loop events).2 = StopIteration ↔ ∀ sse, sse ∈ events → httpx_sse.event sse ≠ "error").
Proof.
  split_and!.
  - intros sse rest [Hping|[Hping Htag]].
    + apply sse_loop_ping; [|by left]. unfold error_tagged. by rewrite Hping.
    + apply sse_loop_ping; [done | by right].
  - intros sse rest. apply sse_loop_error.
  - apply sse_loop_survivors.
  - apply survivors_sublist.
  - apply sse_loop_ending.
Qed.

(** The three ways through the guard of [request_stream]. *)
Lemma request_stream_refused (event_source : httpx_sse.EventSource) :
  httpx.is_success (httpx_sse.response event_source) = false →
  ∃ e, errors.raise_for_status (inl (httpx_sse.response event_source)) = Raise e ∧
       request_stream event_source = ([ReadBody], Raised e).
Proof.
  intros Hfail. unfold request_stream, _check_stream_content_type.
  rewrite Hfail. cbn [andb negb].
  destruct (raise_for_status_response_raises _ Hfail) as [e He].
  exists e. by rewrite He.
Qed.

Lemma request_stream_not_a_stream (event_source : httpx_sse.EventSource) :
  httpx.is_success (httpx_sse.response event_source) = true →
  str.contains "text/event-stream"
    (_get_content_type (httpx.headers (httpx_sse.response event_source))) = false →
  request_stream event_source = ([ReadBody; IterSse], Raised SSEError).
Proof.
  intros Hok Hct. unfold request_stream, _check_stream_content_type.
  rewrite Hok, Hct. cbn [andb negb errors.raise_for_status]. rewrite Hok.
  unfold iterate, httpx_sse.iter_sse. unfold _get_content_type in Hct. by rewrite Hct.
Qed.

Lemma request_stream_event_stream (event_source : httpx_sse.EventSource) :
  httpx.is_success (httpx_sse.response event_source) = true →
  str.contains "text/event-stream"
    (_get_content_type (httpx.headers (httpx_sse.response event_source))) = true →
  request_stream event_source
    = then_run [IterSse] (sse_loop (httpx_sse.incoming event_source)).
Proof.
  intros Hok Hct. unfold request_stream, _check_stream_content_type.
  rewrite Hok, Hct. cbn [andb negb].
  unfold iterate, httpx_sse.iter_sse. unfold _get_content_type in Hct. by rewrite Hct.
Qed.

(** C4 (amended). Before any event is read: a response that is not a
    success has its body read and handed to [raise_for_status], which raises,
    so the run ends there and [iter_sse] is never called; what is raised is the
    classified failure whenever the body is a JSON object that validates as an
    error record.  A successful response whose content type does not mention
    [text/event-stream] has its body read too, but [raise_for_status] returns
    for it and the run goes on to [iter_sse], which refuses the content type.
    A successful event stream is iterated without being read first. *)
Theorem stream_guard (event_source : httpx_sse.EventSource) :
  let r := httpx_sse.response event_source in
  let is_sse := str.contains "text/event-stream" (_get_content_type (httpx.headers r)) in
  (httpx.is_success r = false →
     ∃ e, request_stream event_source = ([ReadBody], Raised e) ∧
          errors.raise_for_status (inl r) = Raise e ∧
          ∀ json details,
            json_loads (httpx.content r) = Some (PyDict json) →
            errors.response_details r (PyDict json) = Ok details →
            e = errors.classify details) ∧
  (httpx.is_success r = true → is_sse = false →
     errors.raise_for_status (inl r) = Ok tt ∧
     request_stream event_source = ([ReadBody; IterSse], Raised SSEError)) ∧
  (httpx.is_success r = true → is_sse = true →
     request_stream event_source = then_run [IterSse] (sse_loop (httpx_sse.incoming event_source))).
Proof.
  intros r is_sse. split_and!.
  - intros Hfail. destruct (request_stream_refused _ Hfail) as (e & He & Hrun).
    exists e. split_and!; [done..|].
    intros json details Hjson Hdetails. revert He. cbn [errors.raise_for_status].
    fold r. rewrite Hfail. unfold httpx.json. rewrite Hjson.
    cbn [or_raise mbind result_bind]. rewrite Hdetails. by intros [= <-].
  - intros Hok Hct. split; [|by apply request_stream_not_a_stream].
    cbn [errors.raise_for_status]. by rewrite Hok.
  - intros Hok Hct. by apply request_stream_event_stream.
Qed.

(** The decoding generators see the survivors only: for a successful event
    stream, what [_completion_messages_stream] and its two siblings decode is
    the list of events that are neither pings nor behind an error. *)
Lemma decoded_are_survivors (build : gmap string py → result models.stream_response)
    (event_source : httpx_sse.EventSource) :
  httpx.is_success (httpx_sse.response event_source) = true →
  str.contains "text/event-stream"
    (_get_content_type (httpx.headers (httpx_sse.response event_source))) = true →
  let r := request_stream event_source in
  decode_steps build r.1 r.2
    = then_run [IterSse]
        (decode_steps build (Yield <$> survivors (httpx_sse.incoming event_source))
           (sse_loop (httpx_sse.incoming event_source)).2).
Proof.
  intros Hok Hct. cbn zeta. rewrite request_stream_event_stream by done.
  unfold then_run at 1 2. cbn [fst snd app decode_steps].
  by rewrite sse_loop_survivors.
Qed.

End pipeline.

Lemma ping_dropped_after_error_check_witness :
  _clientx.sse_loop (H := reference) samples.noisy_stream
    = _clientx.sse_loop (H := reference) (tail samples.noisy_stream) ∧
  (_clientx.sse_loop (H := reference) samples.noisy_stream).1
    = [_clientx.Yield (samples.message_sse "a"); _clientx.Yield (samples.message_sse "b")] ∧
  (_clientx.sse_loop (H := reference) samples.noisy_stream).2 = _clientx.StopIteration.
Proof.
  destruct (ping_dropped_after_error_check (H := reference) samples.noisy_stream)
    as (Hdrop & _ & Hyield & _ & Hend).
  split_and!.
  - apply Hdrop. left. reflexivity.
  - rewrite Hyield. vm_compute. reflexivity.
  - apply Hend. intros x Hin. unfold samples.noisy_stream in Hin.
    repeat (apply elem_of_cons in Hin as [->|Hin]; [discriminate|]).
    by apply elem_of_nil in Hin.
Defined.

(** C3, as stated, fails: an event tagged [error] whose data is [ping] is not
    dropped.  The error check reads it first, its data is no JSON document, and
    the run ends with that failure instead of going on to the message behind
    it. *)
Lemma error_tagged_ping_not_dropped :
  _clientx.sse_loop (H := reference) [samples.sse "error" "ping"; samples.message_sse "a"]
    = ([], _clientx.Raised JSONDecodeError) ∧
  _clientx.sse_loop (H := reference) [samples.message_sse "a"]
    = ([_clientx.Yield (samples.message_sse "a")], _clientx.StopIteration).
Proof. split; vm_compute; reflexivity. Qed.

Lemma stream_guard_witness :
  _clientx.request_stream (H := reference) samples.refused
    = ([_clientx.ReadBody],
       _clientx.Raised (DifyError DifyInvalidParam 400 "invalid_param" "bad input")).
Proof.
  destruct (stream_guard (H := reference) samples.refused) as (Hrefused & _).
  destruct (Hrefused eq_refl) as (e & Hrun & _ & Hclass).
  rewrite Hrun.
  rewrite (Hclass (list_to_map [("code", PyStr "invalid_param"); ("message", PyStr "bad input")])
             {| models.status := 400; models.code := "invalid_param";
                models.message := "bad input" |});
    [reflexivity | vm_compute; reflexivity | vm_compute; reflexivity].
Defined.

(** C4, as stated, fails: for a successful reply whose content type is not
    [text/event-stream] the body is read, but no failure comes out of the
    classifier, and the run does go on to iterate the events; what ends it is
    the transport's refusal of the content type. *)
Lemma successful_non_stream_reaches_sse :
  _clientx._check_stream_content_type (httpx_sse.response samples.not_a_stream) = false ∧
  errors.raise_for_status (H := reference) (inl (httpx_sse.response samples.not_a_stream)) = Ok tt ∧
  _clientx.request_stream (H := reference) samples.not_a_stream
    = ([_clientx.ReadBody; _clientx.IterSse], _clientx.Raised SSEError).
Proof. split_and!; vm_compute; reflexivity. Qed.

(** ** The model at work *)

(** A chat stream: the ping is skipped, the message decoded, the error event
    ends the stream with the not-found failure and the message behind it is
    never reached. *)
Example chat_stream_run :
  _clientx._chat_messages_stream (H := reference) samples.chat_reply
    = ([_clientx.IterSse; _clientx.Yield samples.message_event],
       _clientx.Raised (DifyError DifyResourceNotFound 404 "not_found" "x")).
Proof. vm_compute. reflexivity. Qed.

(** The payload of an error event is validated as a stream shape, whose
    [event] field is required: without it the failure is the validation
    error, not a classified one. *)
Example error_payload_needs_event :
  errors.raise_for_status (H := reference)
    (inr (samples.sse "error" (samples.object [("code", "not_found"); ("message", "x")])))
    = Raise ValidationError.
Proof. vm_compute. reflexivity. Qed.

(** * Further properties of the code *)

(** ** Tags and the resolver *)

(** X1. A string resolves to a tag exactly when it is that tag's value:
    [StreamEvent.new] undoes [.value], and nothing else resolves. *)
Theorem tag_round_trip (s : string) (e : models.StreamEvent.t) :
  models.StreamEvent.new (inr (PyStr s)) = Ok (inl e) ↔ s = models.StreamEvent.value e.
Proof.
  split.
  - intros (e' & [= <-] & [[=]|[= ->]])%new_Ok. done.
  - intros ->. apply new_known.
Qed.

(** X2. [str_to_enum] never matches an object that is not a string ([None],
    a number, a list): strict mode raises with the object, tolerant mode
    returns the default; and tolerant mode never raises at all. *)
Theorem str_to_enum_non_string {M D : Type} (cls : utils.EnumClass M) (dflt : D) :
  (∀ v, ∃ r, utils.str_to_enum cls v true dflt = Ok r) ∧
  (∀ v, models.is_str v = false →
     utils.str_to_enum cls v false dflt = Raise (ValueError "Invalid enum value: " v) ∧
     utils.str_to_enum cls v true dflt = Ok (inr dflt)).
Proof.
  split.
  - intros v. unfold utils.str_to_enum.
    destruct (utils.first_match _ _ _); by eexists.
  - intros v Hv. unfold utils.str_to_enum.
    assert (utils.first_match (utils.value cls) v (utils.members cls) = None) as ->; [|done].
    apply first_match_None. intros m _ ->. done.
Qed.

Lemma str_to_enum_non_string_witness :
  utils.str_to_enum models.StreamEvent.cls (PyInt 3) false PyNone
    = Raise (ValueError "Invalid enum value: " (PyInt 3)).
Proof.
  apply (str_to_enum_non_string models.StreamEvent.cls PyNone). reflexivity.
Defined.

Section dispatcher_more.
Import models.
Context `{Externals}.
Implicit Types (data : gmap string py) (f : family) (e : StreamEvent.t) (cls : shape)
  (fd : Field).

Lemma build_known f data e :
  data !! "event" = Some (PyStr (StreamEvent.value e)) →
  build f data = instantiate (default StreamResponse (declared_shape f e)) data.
Proof.
  intros He. rewrite build_unfold. unfold STREAM_EVENT_KEY. rewrite He. simpl default.
  rewrite new_known. simpl. by rewrite table_declared.
Qed.

Lemma build_Ok f data r :
  build f data = Ok r →
  data !! "event" = Some (PyStr (StreamEvent.value (event r))) ∧
  instantiate (default StreamResponse (declared_shape f (event r))) data = Ok r.
Proof.
  intros Hr. pose proof Hr as Hr'. rewrite build_unfold in Hr'. unfold STREAM_EVENT_KEY in Hr'.
  destruct (StreamEvent.new _) as [y|] eqn:Hy; [simpl in Hr'|done].
  apply new_Ok in Hy as (e & -> & [[=]|[= Hev]]).
  assert (data !! "event" = Some (PyStr (StreamEvent.value e))) as He.
  { destruct (data !! "event"); simpl in Hev; [by subst|done]. }
  apply instantiate_Ok in Hr' as (_ & Hev' & _).
  rewrite (validate_event_known _ _ He) in Hev'. injection Hev' as ->.
  split; [done|]. by rewrite <- build_known.
Qed.

(** X3. A payload whose [event] is anything but the value of a tag (an
    unknown string, a number, [None]) makes each dispatcher fail in the strict
    resolver, with a [ValueError] that carries the offending object: no
    family falls back to the generic shape for it. *)
Theorem unknown_tag_fails f data v :
  data !! "event" = Some v →
  (∀ e, v ≠ PyStr (StreamEvent.value e)) →
  build f data = Raise (ValueError "Invalid enum value: " v).
Proof.
  intros Hv Hno. rewrite build_unfold. unfold STREAM_EVENT_KEY. rewrite Hv. simpl default.
  by rewrite (new_unknown v Hno).
Qed.

(** X4. The chat table contains the completion table and the workflow
    table: a payload whose tag one of those two families declares a shape for
    is decoded by the chat dispatcher exactly as by that family's. *)
Theorem chat_extends f data e cls :
  (e, cls) ∈ table f →
  data !! "event" = Some (PyStr (StreamEvent.value e)) →
  (e, cls) ∈ table chat ∧ build chat data = build f data.
Proof.
  intros Hin%table_entries He.
  assert (declared_shape chat e = Some cls) as Hchat.
  { destruct f; [|done|]; destruct e; simpl in *; congruence. }
  split; [by apply table_entries|].
  by rewrite !(build_known _ _ _ He), Hchat, Hin.
Qed.

Lemma validate_fields_dom (fields : list Field) data (m : gmap string py) :
  validate_fields fields data = Some m →
  dom m = list_to_set (field_name <$> fields).
Proof.
  revert m. induction fields as [|fd rest IH]; intros m; simpl.
  - intros [= <-]. by rewrite dom_empty_L.
  - destruct (field_value _ _ _) as [v|]; [simpl|done].
    destruct (validate_fields rest data) as [m'|]; [simpl|done].
    intros [= <-]. rewrite dom_insert_L. by rewrite (IH m').
Qed.

Lemma validate_fields_lookup (fields : list Field) data (m : gmap string py) fd :
  validate_fields fields data = Some m →
  NoDup (field_name <$> fields) →
  fd ∈ fields →
  m !! field_name fd
    = field_value (validate_type (field_type fd)) (field_default fd) (data !! field_name fd).
Proof.
  revert m. induction fields as [|fd' rest IH]; intros m; simpl.
  { intros _ _ Hin. by apply elem_of_nil in Hin. }
  destruct (field_value _ _ (data !! field_name fd')) as [v|] eqn:Hv; [simpl|done].
  destruct (validate_fields rest data) as [m'|]; [simpl|done].
  intros [= <-] [Hfresh Hnd]%NoDup_cons [->|Hin]%elem_of_cons.
  - by rewrite lookup_insert_eq.
  - rewrite lookup_insert_ne; [by apply IH|].
    intros Heq. apply Hfresh. rewrite Heq. apply list_elem_of_fmap. eauto.
Qed.

Lemma validate_fields_missing (fields : list Field) data fd :
  fd ∈ fields → field_default fd = None → data !! field_name fd = None →
  validate_fields fields data = None.
Proof.
  induction fields as [|fd' rest IH]; simpl.
  { intros Hin. by apply elem_of_nil in Hin. }
  intros [->|Hin]%elem_of_cons Hd Hk.
  - by rewrite Hk, Hd.
  - rewrite (IH Hin Hd Hk). by destruct (field_value _ _ _).
Qed.

Lemma own_fields_NoDup cls : NoDup (field_name <$> own_fields cls).
Proof. destruct cls; apply (bool_decide_unpack _); vm_compute; reflexivity. Qed.

(** X5. What a decoded event is made of: its tag is the one the payload
    names, its attributes are exactly the fields its class declares, and its
    extra data are exactly the payload's entries under keys the class does not
    declare, so no extra entry ever shadows a declared field. *)
Theorem decoded_event_invariants f data r :
  build f data = Ok r →
  data !! "event" = Some (PyStr (StreamEvent.value (event r))) ∧
  class_of r = default StreamResponse (declared_shape f (event r)) ∧
  dom (attrs r) = list_to_set (field_name <$> own_fields (class_of r)) ∧
  dom (model_extra r) = dom data ∖ list_to_set (declared_names (class_of r)).
Proof.
  intros (He & Hr)%build_Ok. split; [done|].
  apply instantiate_Ok in Hr as (Hc & _ & _ & Hfs & Hx).
  split_and!; [done | rewrite Hc; by apply validate_fields_dom with data |].
  rewrite Hx, Hc. apply set_eq. intros k.
  rewrite elem_of_dom, lookup_extra_of, elem_of_difference, elem_of_dom, elem_of_list_to_set.
  destruct (decide (k ∈ _)) as [Hin|Hin].
  - split; [by intros [? [=]] | by intros [_ []]].
  - split; [by intros Hk | by intros [Hk _]].
Qed.

(** X6. A payload that lacks a field its shape requires is refused with a
    validation error, whatever else it holds. *)
Theorem missing_required_field f data e fd :
  data !! "event" = Some (PyStr (StreamEvent.value e)) →
  fd ∈ own_fields (default StreamResponse (declared_shape f e)) →
  field_default fd = None →
  data !! field_name fd = None →
  build f data = Raise ValidationError.
Proof.
  intros He Hin Hd Hk. rewrite (build_known _ _ _ He). unfold instantiate.
  rewrite (validate_fields_missing _ _ _ Hin Hd Hk).
  by destruct (validate_event (data !! "event")), (validate_task_id (data !! "task_id")).
Qed.

(** X7. A field the payload leaves out takes the default its class
    declares: an absent [task_id] reads as the empty string, and so on for
    every declared default ([conversation_id], [message_files]). *)
Theorem absent_fields_take_defaults f data r :
  build f data = Ok r →
  (data !! "task_id" = None → task_id r = Some "") ∧
  (∀ fd d, fd ∈ own_fields (class_of r) → field_default fd = Some d →
     data !! field_name fd = None → attrs r !! field_name fd = Some d).
Proof.
  intros (_ & Hr)%build_Ok.
  apply instantiate_Ok in Hr as (Hc & _ & Ht & Hfs & _). split.
  - intros Hnone. rewrite Hnone in Ht. simpl in Ht. congruence.
  - intros fd d Hin Hd Hk. rewrite <- Hc in Hfs.
    rewrite (validate_fields_lookup _ _ _ fd Hfs (own_fields_NoDup _) Hin).
    by rewrite Hk.
Qed.

End dispatcher_more.

Section dispatcher_verbatim.
Import models.
Context `{Externals}.

Lemma validate_type_exact (a : annotation) (v : py) :
  exact_type a v = true → validate_type a v = Some v.
Proof.
  induction a as [| |inner IH| |n]; simpl.
  - by destruct v.
  - by destruct v.
  - destruct v; try done; apply IH.
  - destruct v as [| | | | |l|]; try done. by intros ->.
  - done.
Qed.

(** X8. Fields the payload provides with the declared type come out as
    they went in: a string [task_id], and every string, integer, null or
    string-list entry of a declared field, is stored unchanged. *)
Theorem provided_fields_verbatim (f : family) (data : gmap string py) (r : stream_response) :
  build f data = Ok r →
  (∀ s, data !! "task_id" = Some (PyStr s) → task_id r = Some s) ∧
  (∀ fd v, fd ∈ own_fields (class_of r) → data !! field_name fd = Some v →
     exact_type (field_type fd) v = true → attrs r !! field_name fd = Some v).
Proof.
  intros (_ & Hr)%build_Ok.
  apply instantiate_Ok in Hr as (Hc & _ & Ht & Hfs & _). split.
  - intros s Hs. rewrite Hs in Ht. simpl in Ht. congruence.
  - intros fd v Hin Hv Hexact. rewrite <- Hc in Hfs.
    rewrite (validate_fields_lookup _ _ _ fd Hfs (own_fields_NoDup _) Hin), Hv.
    by apply validate_type_exact.
Qed.

End dispatcher_verbatim.

Lemma unknown_tag_fails_witness :
  build (H := reference) workflow {["event" := PyStr "tts_message"]}
    = Raise (ValueError "Invalid enum value: " (PyStr "tts_message")).
Proof.
  apply unknown_tag_fails; [apply lookup_singleton_eq|].
  intros e; destruct e; discriminate.
Defined.

Lemma chat_extends_witness :
  (models.StreamEvent.MESSAGE, models.MessageStreamResponse) ∈ table chat ∧
  build (H := reference) chat samples.message_payload
    = build (H := reference) completion samples.message_payload.
Proof.
  apply (chat_extends (H := reference) completion samples.message_payload
           models.StreamEvent.MESSAGE models.MessageStreamResponse).
  - simpl. set_solver.
  - vm_compute. reflexivity.
Defined.

Lemma decoded_event_invariants_witness :
  dom (models.attrs samples.message_event)
    = list_to_set (models.field_name <$> models.own_fields models.MessageStreamResponse) ∧
  dom (models.model_extra samples.message_event)
    = dom samples.message_payload ∖ list_to_set (models.declared_names models.MessageStreamResponse).
Proof.
  destruct (decoded_event_invariants (H := reference) chat samples.message_payload
              samples.message_event) as (_ & _ & Hattrs & Hextra);
    [vm_compute; reflexivity|].
  split; [exact Hattrs | exact Hextra].
Defined.

Lemma missing_required_field_witness :
  build (H := reference) completion
      (list_to_map [("event", PyStr "message"); ("message_id", PyStr "m-1");
                    ("created_at", PyInt 1)])
    = Raise ValidationError.
Proof.
  apply (missing_required_field (H := reference) completion _ models.StreamEvent.MESSAGE
           (models.required "answer" models.TStr)).
  - vm_compute. reflexivity.
  - simpl. set_solver.
  - reflexivity.
  - vm_compute. reflexivity.
Defined.

Lemma absent_fields_take_defaults_witness :
  models.attrs samples.message_event !! "conversation_id" = Some (PyStr "").
Proof.
  destruct (absent_fields_take_defaults (H := reference) chat samples.message_payload
              samples.message_event) as (_ & Hdefault); [vm_compute; reflexivity|].
  apply (Hdefault (models.defaulted "conversation_id" (models.TOptional models.TStr) (PyStr ""))).
  - simpl. set_solver.
  - reflexivity.
  - vm_compute. reflexivity.
Defined.

Lemma provided_fields_verbatim_witness :
  models.task_id samples.message_event = Some "t-1" ∧
  models.attrs samples.message_event !! "answer" = Some (PyStr "hi").
Proof.
  destruct (provided_fields_verbatim (H := reference) chat samples.message_payload
              samples.message_event) as (Htask & Hfield); [vm_compute; reflexivity|].
  split.
  - apply Htask. vm_compute. reflexivity.
  - apply (Hfield (models.required "answer" models.TStr)).
    + simpl. set_solver.
    + vm_compute. reflexivity.
    + reflexivity.
Defined.

(** ** Failures *)

Lemma SPEC_CODE_ERRORS_specific :
  map_Forall (λ _ cls, cls ≠ DifyAPIError ∧ cls ≠ DifyResourceNotFound
                       ∧ cls ≠ DifyInternalServerError) errors.SPEC_CODE_ERRORS.
Proof. apply (bool_decide_unpack _). vm_compute. reflexivity. Qed.

Lemma SPEC_CODE_ERRORS_injective :
  map_Forall (λ c1 cls1,
    map_Forall (λ c2 cls2, cls1 = cls2 → c1 = c2) errors.SPEC_CODE_ERRORS)
    errors.SPEC_CODE_ERRORS.
Proof. apply (bool_decide_unpack _). vm_compute. reflexivity. Qed.

(** X9. The kind of a classified failure tells its status: it is the
    not-found kind exactly for status 404, the internal-server-error kind
    exactly for status 500, and the generic kind exactly for another status
    with a code the table does not know.  No code, known or not, can produce
    the first two kinds. *)
Theorem classify_kind_status (d : models.ErrorResponse) :
  ∃ cls,
    errors.classify d = DifyError cls (models.status d) (models.code d) (models.message d) ∧
    (cls = DifyResourceNotFound ↔ models.status d = 404) ∧
    (cls = DifyInternalServerError ↔ models.status d = 500) ∧
    (cls = DifyAPIError ↔
       models.status d ≠ 404 ∧ models.status d ≠ 500 ∧
       errors.SPEC_CODE_ERRORS !! models.code d = None).
Proof.
  unfold errors.classify, HTTPStatus.NOT_FOUND, HTTPStatus.INTERNAL_SERVER_ERROR.
  destruct (Z.eqb_spec (models.status d) 404) as [H404|H404].
  { eexists. split; [done|]. rewrite H404. split_and!; split; try done; lia || by intros []. }
  destruct (Z.eqb_spec (models.status d) 500) as [H500|H500].
  { eexists. split; [done|]. rewrite H500. split_and!; split; try done; lia || by intros (_ & ? & _). }
  eexists. split; [done|].
  destruct (errors.SPEC_CODE_ERRORS !! models.code d) as [cls|] eqn:Hc; simpl.
  - destruct (SPEC_CODE_ERRORS_specific _ _ Hc) as (Hg & Hn & Hi).
    split_and!; split; try done. by intros (_ & _ & ?).
  - split_and!; split; done.
Qed.

(** X10. Away from 404 and 500 a specific kind tells the code: the table
    gives each kind to one code only, so a failure of a kind other than the
    three generic ones carries the one code that kind stands for. *)
Theorem kind_determines_code (d : models.ErrorResponse) (cls : DifyErrorClass) (s : Z)
    (c m : string) :
  errors.classify d = DifyError cls s c m →
  cls ≠ DifyAPIError → cls ≠ DifyResourceNotFound → cls ≠ DifyInternalServerError →
  errors.SPEC_CODE_ERRORS !! c = Some cls ∧
  ∀ c', errors.SPEC_CODE_ERRORS !! c' = Some cls → c' = c.
Proof.
  unfold errors.classify.
  destruct (_ =? _)%Z; [by intros [= <-]|].
  destruct (_ =? _)%Z; [by intros [= <-]|].
  destruct (errors.SPEC_CODE_ERRORS !! models.code d) as [cls'|] eqn:Hc; simpl;
    [|by intros [= <-]].
  intros [= -> _ <- _] _ _ _. split; [done|].
  intros c' Hc'. by apply (SPEC_CODE_ERRORS_injective _ _ Hc' _ _ Hc).
Qed.

Lemma kind_determines_code_witness :
  errors.SPEC_CODE_ERRORS !! "file_too_large" = Some DifyFileTooLarge ∧
  ∀ c', errors.SPEC_CODE_ERRORS !! c' = Some DifyFileTooLarge → c' = "file_too_large".
Proof.
  apply (kind_determines_code
    {| models.status := 413; models.code := "file_too_large"; models.message := "big" |}
    DifyFileTooLarge 413 "file_too_large" "big"); [vm_compute; reflexivity | done..].
Defined.

Section raising_more.
Import models.
Context `{Externals}.

(** X11. [raise_for_status] returns normally in two cases only: for a
    response exactly when its status is 2xx, whatever its body, and for an SSE
    event exactly when its tag is not [error], whatever its data. *)
Theorem raise_for_status_returns (x : httpx.Response + httpx_sse.ServerSentEvent) :
  errors.raise_for_status x = Ok tt ↔
  match x with
  | inl r => httpx.is_success r = true
  | inr sse => httpx_sse.event sse ≠ "error"
  end.
Proof.
  destruct x as [r|sse].
  - destruct (httpx.is_success r) eqn:Hs.
    + split; [done|]. intros _. simpl. by rewrite Hs.
    + destruct (raise_for_status_response_raises r Hs) as [e ->]. done.
  - destruct (decide (httpx_sse.event sse = "error")) as [Htag|Htag].
    + destruct (raise_for_status_event_raises sse Htag) as [e ->]. done.
    + by rewrite raise_for_status_event_passes.
Qed.

(** X12. The failure of an HTTP error: when the body of a response that
    is not a success is a JSON object that validates as an error record, the
    classified failure is raised with the body's [status] when it gives one and
    the status of the HTTP status line when it gives none; code and message
    are the body's, the empty string when absent. *)
Theorem http_failure_status (r : httpx.Response) (json : gmap string py) (d : ErrorResponse) :
  httpx.is_success r = false →
  json_loads (httpx.content r) = Some (PyDict json) →
  errors.response_details r (PyDict json) = Ok d →
  errors.raise_for_status (inl r) = Raise (errors.classify d) ∧
  (json !! "status" = None → status d = httpx.status_code r) ∧
  (∀ n, json !! "status" = Some (PyInt n) → status d = n) ∧
  (∀ c, json !! "code" = Some (PyStr c) → code d = c) ∧
  (json !! "code" = None → code d = "") ∧
  (∀ m, json !! "message" = Some (PyStr m) → message d = m) ∧
  (json !! "message" = None → message d = "").
Proof.
  intros Hfail Hjson Hd. split.
  { cbn [errors.raise_for_status]. rewrite Hfail. unfold httpx.json. rewrite Hjson.
    cbn [or_raise mbind result_bind]. by rewrite Hd. }
  unfold errors.response_details, ErrorResponse_init in Hd.
  destruct (json !! "status") as [st|] eqn:Hst.
  - rewrite Hst in Hd. simpl in Hd.
    destruct (validate_int st) as [s|] eqn:Hs; [|done].
    destruct (json !! "code") as [cv|], (json !! "message") as [mv|]; simpl in Hd;
      repeat (case_match; try done); simplify_eq; simpl;
      split_and!; try done; intros; simplify_eq; simpl in *; by simplify_eq.
  - rewrite lookup_insert_eq, !lookup_insert_ne in Hd by done. simpl in Hd.
    destruct (json !! "code") as [cv|], (json !! "message") as [mv|]; simpl in Hd;
      repeat (case_match; try done); simplify_eq; simpl;
      split_and!; try done; intros; simplify_eq; simpl in *; by simplify_eq.
Qed.

(** X13. The other ways an HTTP error ends: a body that is not JSON raises
    the decoder's error, a JSON body that is not an object a [TypeError], an
    object whose [code] or [message] is not a string a validation error; none
    is turned into a classified failure. *)
Theorem http_failure_shapes (r : httpx.Response) :
  httpx.is_success r = false →
  (json_loads (httpx.content r) = None →
     errors.raise_for_status (inl r) = Raise JSONDecodeError) ∧
  (∀ body, json_loads (httpx.content r) = Some body → (∀ d, body ≠ PyDict d) →
     errors.raise_for_status (inl r) = Raise TypeError) ∧
  (∀ json k v, json_loads (httpx.content r) = Some (PyDict json) →
     k = "code" ∨ k = "message" → json !! k = Some v → is_str v = false →
     errors.raise_for_status (inl r) = Raise ValidationError).
Proof.
  intros Hfail. simpl. rewrite Hfail. unfold httpx.json. split_and!.
  - by intros ->.
  - intros body -> Hnot. simpl. destruct body; try done. by destruct (Hnot d).
  - intros json k v -> Hk Hv Hstr. simpl. unfold ErrorResponse_init.
    assert (∀ j : gmap string py, j !! k = Some v →
      match field_value validate_int (Some HTTPStatus.INTERNAL_SERVER_ERROR) (j !! "status"),
            field_value validate_str (Some "") (j !! "code"),
            field_value validate_str (Some "") (j !! "message") with
      | Some s, Some c, Some m => Ok {| status := s; code := c; message := m |}
      | _, _, _ => Raise ValidationError
      end = Raise ValidationError) as Hbad.
    { intros j Hj. destruct Hk as [->| ->]; rewrite Hj; simpl;
        destruct v; try done; repeat case_match; done. }
    rewrite Hbad; [done|].
    destruct (json !! "status"); [done|].
    rewrite lookup_insert_ne; [done|]. by destruct Hk as [->| ->].
Qed.

(** X14. The failure of an in-band error: when the payload of an
    error-tagged event validates, what is raised is the classification of its
    [status], [code] and [message] alone, read as [ErrorResponse] reads them;
    [task_id], [message_id] and extra entries have no part in it. *)
Theorem error_event_classified (sse : httpx_sse.ServerSentEvent) (json : gmap string py)
    (e : ErrorStreamResponse) :
  httpx_sse.event sse = "error" →
  json_loads (httpx_sse.data sse) = Some (PyDict json) →
  ErrorStreamResponse_init json = Ok e →
  ErrorResponse_init json = Ok (details e) ∧
  errors.raise_for_status (inr sse) = Raise (errors.classify (details e)).
Proof.
  intros Htag Hjson He. split.
  - unfold ErrorStreamResponse_init in He.
    destruct (ErrorResponse_init json) as [d|];
      repeat (case_match; try done); by simplify_eq.
  - simpl. rewrite Htag. simpl. unfold httpx_sse.json. rewrite Hjson. simpl.
    by rewrite He.
Qed.

End raising_more.

Lemma http_failure_status_witness :
  errors.raise_for_status (H := reference) (inl (httpx_sse.response samples.refused))
    = Raise (DifyError DifyInvalidParam 400 "invalid_param" "bad input").
Proof.
  apply (http_failure_status (H := reference) (httpx_sse.response samples.refused)
           (list_to_map [("code", PyStr "invalid_param"); ("message", PyStr "bad input")])
           {| models.status := 400; models.code := "invalid_param";
              models.message := "bad input" |});
    vm_compute; reflexivity.
Defined.

Lemma http_failure_shapes_witness :
  errors.raise_for_status (H := reference)
    (inl (httpx_sse.response (samples.reply 502 "text/html" "<html>Bad Gateway</html>" [])))
    = Raise JSONDecodeError.
Proof.
  apply (http_failure_shapes (H := reference)); vm_compute; reflexivity.
Defined.

Lemma error_event_classified_witness :
  errors.raise_for_status (H := reference) (inr (samples.sse "error" samples.not_found_text))
    = Raise (DifyError DifyResourceNotFound 404 "not_found" "x").
Proof.
  apply (error_event_classified (H := reference) (samples.sse "error" samples.not_found_text)
    (list_to_map [("event", PyStr "error"); ("code", PyStr "not_found");
                  ("message", PyStr "x"); ("status", PyInt 404)])
    {| models.error_event := models.StreamEvent.ERROR;
       models.error_task_id := Some "";
       models.details := {| models.status := 404; models.code := "not_found";
                            models.message := "x" |};
       models.message_id := Some "";
       models.error_extra := ∅ |}); vm_compute; reflexivity.
Defined.

(** ** The run of a stream *)

Section pipeline_more.
Import _clientx.
Context `{Externals}.
Implicit Types (sse : httpx_sse.ServerSentEvent) (events : list httpx_sse.ServerSentEvent)
  (event_source : httpx_sse.EventSource).

Lemma until_error_elem events sse :
  sse ∈ until_error events → sse ∈ events ∧ ¬ error_tagged sse.
Proof.
  induction events as [|x rest IH]; simpl; [by intros ?%elem_of_nil|].
  destruct (decide (error_tagged x)) as [Hx|Hx]; [by intros ?%elem_of_nil|].
  intros [->|Hin]%elem_of_cons.
  - split; [left | done].
  - destruct (IH Hin). split; [by right | done].
Qed.

(** X15. What [request_stream] hands to its consumer: only events of a
    successful response that declares an event stream, only events the
    transport delivered, never a ping (by tag or by data) and never an
    error-tagged event. *)
Theorem yielded_events event_source sse :
  Yield sse ∈ (request_stream event_source).1 →
  httpx.is_success (httpx_sse.response event_source) = true ∧
  str.contains "text/event-stream"
    (_get_content_type (httpx.headers (httpx_sse.response event_source))) = true ∧
  sse ∈ httpx_sse.incoming event_source ∧
  ¬ is_ping sse ∧ ¬ error_tagged sse.
Proof.
  destruct (httpx.is_success (httpx_sse.response event_source)) eqn:Hok.
  - destruct (str.contains _ _) eqn:Hct.
    + rewrite (request_stream_event_stream _ Hok Hct). unfold then_run. cbn [fst app].
      rewrite sse_loop_survivors.
      intros [[=]|Hin]%elem_of_cons.
      apply list_elem_of_fmap in Hin as (y & [= <-] & Hy).
      unfold survivors in Hy. apply list_elem_of_filter in Hy as [Hping Hy].
      apply until_error_elem in Hy as [Hy Herr]. split_and!; done.
    + rewrite (request_stream_not_a_stream _ Hok Hct). cbn [fst].
      intros Hin. repeat (apply elem_of_cons in Hin as [[=]|Hin]).
      by apply elem_of_nil in Hin.
  - destruct (request_stream_refused _ Hok) as (e & _ & ->). cbn [fst].
    intros Hin. repeat (apply elem_of_cons in Hin as [[=]|Hin]).
    by apply elem_of_nil in Hin.
Qed.

(** X16. The loop works event by event: as long as no error-tagged event
    has come, the run over more events is the run so far followed by the run
    over the new ones, so a consumer sees the same events however the
    transport cuts the stream. *)
Theorem sse_loop_app events more :
  (∀ sse, sse ∈ events → ¬ error_tagged sse) →
  sse_loop (events ++ more) = then_run (sse_loop events).1 (sse_loop more).
Proof.
  induction events as [|x rest IH]; intros Hno.
  - unfold then_run. simpl. by destruct (sse_loop more).
  - assert (¬ error_tagged x) as Hx by (apply Hno; left).
    assert (sse_loop (rest ++ more) = then_run (sse_loop rest).1 (sse_loop more)) as IH'.
    { apply IH. intros y Hy. apply Hno. by right. }
    rewrite <- app_comm_cons.
    destruct (decide (is_ping x)) as [Hp|Hp].
    + by rewrite !sse_loop_ping.
    + rewrite !sse_loop_yield, IH' by done. unfold then_run. cbn [fst snd app]. done.
Qed.

(** X17. Nothing is read past an error: the run over a stream with an
    error-tagged event is the run over the stream cut after that event. *)
Theorem sse_loop_stops_at_error events sse more :
  error_tagged sse →
  sse_loop (events ++ sse :: more) = sse_loop (events ++ [sse]).
Proof.
  intros Herr. induction events as [|x rest IH].
  - destruct (raise_for_status_event_raises sse Herr) as [e He].
    simpl app. cbn [sse_loop]. by rewrite He.
  - rewrite <- !app_comm_cons.
    destruct (decide (error_tagged x)) as [Hx|Hx].
    + destruct (raise_for_status_event_raises x Hx) as [e He].
      cbn [sse_loop]. by rewrite He.
    + destruct (decide (is_ping x)) as [Hp|Hp].
      * by rewrite !sse_loop_ping.
      * by rewrite !sse_loop_yield, IH.
Qed.

(** X18. A stream ends without a failure in one case only: the response
    is a success, its content type declares an event stream, and no event is
    tagged [error]. *)
Theorem normal_end event_source :
  (request_stream event_source).2 = StopIteration ↔
  httpx.is_success (httpx_sse.response event_source) = true ∧
  str.contains "text/event-stream"
    (_get_content_type (httpx.headers (httpx_sse.response event_source))) = true ∧
  ∀ sse, sse ∈ httpx_sse.incoming event_source → ¬ error_tagged sse.
Proof.
  destruct (httpx.is_success (httpx_sse.response event_source)) eqn:Hok.
  - destruct (str.contains _ _) eqn:Hct.
    + rewrite (request_stream_event_stream _ Hok Hct). unfold then_run. cbn [snd].
      rewrite sse_loop_ending. split; [done | by intros (_ & _ & ?)].
    + rewrite (request_stream_not_a_stream _ Hok Hct). cbn [snd].
      split; [done | by intros (_ & ? & _)].
  - destruct (request_stream_refused _ Hok) as (e & _ & ->). cbn [snd].
    split; [done | by intros (? & _)].
Qed.

Lemma decode_steps_yields (build : gmap string py → result models.stream_response)
    events (e : ending) :
  decode_steps build (Yield <$> events) e
    = (Yield <$> (decode_all build events).1,
       match (decode_all build events).2 with
       | Some x => Raised x
       | None => e
       end).
Proof.
  induction events as [|sse rest IH]; [done|].
  cbn [fmap list_fmap decode_steps decode_all].
  destruct (decode build sse) as [r|x]; [|done].
  fold (fmap (M := list) (@Yield httpx_sse.ServerSentEvent)).
  rewrite IH. unfold then_run. done.
Qed.

(** X19. What the three streaming calls give their caller, for a
    successful event stream: the typed events of the surviving raw events, in
    order, up to the first whose payload does not decode; that failure ends
    the stream, and otherwise it ends as the raw stream ended. *)
Theorem typed_streams event_source :
  httpx.is_success (httpx_sse.response event_source) = true →
  str.contains "text/event-stream"
    (_get_content_type (httpx.headers (httpx_sse.response event_source))) = true →
  let typed build :=
    let decoded := decode_all build (survivors (httpx_sse.incoming event_source)) in
    (IterSse :: (Yield <$> decoded.1),
     match decoded.2 with
     | Some x => Raised x
     | None => (sse_loop (httpx_sse.incoming event_source)).2
     end) in
  _completion_messages_stream event_source = typed models.build_completion_stream_response ∧
  _chat_messages_stream event_source = typed models.build_chat_stream_response ∧
  _run_workflows_stream event_source = typed models.build_workflows_stream_response.
Proof.
  intros Hok Hct typed.
  assert (∀ build, decode_steps build (request_stream event_source).1
                     (request_stream event_source).2 = typed build) as Hall.
  { intros build. rewrite (decoded_are_survivors build _ Hok Hct).
    rewrite decode_steps_yields. done. }
  split_and!; apply Hall.
Qed.

End pipeline_more.

Lemma yielded_events_witness :
  samples.sse "message" samples.message_text ∈ httpx_sse.incoming samples.chat_reply ∧
  ¬ is_ping (samples.sse "message" samples.message_text) ∧
  ¬ error_tagged (samples.sse "message" samples.message_text).
Proof.
  apply (yielded_events (H := reference) samples.chat_reply).
  assert ((_clientx.request_stream (H := reference) samples.chat_reply).1
          = [_clientx.IterSse; _clientx.Yield (samples.sse "message" samples.message_text)])
    as -> by (vm_compute; reflexivity).
  apply list_elem_of_further, list_elem_of_here.
Defined.

Lemma sse_loop_app_witness :
  _clientx.sse_loop (H := reference)
      ([samples.sse "ping" ""; samples.message_sse "a"] ++ [samples.message_sse "b"])
    = _clientx.then_run
        (_clientx.sse_loop (H := reference) [samples.sse "ping" ""; samples.message_sse "a"]).1
        (_clientx.sse_loop (H := reference) [samples.message_sse "b"]).
Proof.
  apply (sse_loop_app (H := reference)).
  intros x Hin. repeat (apply elem_of_cons in Hin as [->|Hin]; [discriminate|]).
  by apply elem_of_nil in Hin.
Defined.

Lemma sse_loop_stops_at_error_witness :
  _clientx.sse_loop (H := reference)
      ([samples.message_sse "a"] ++ samples.sse "error" samples.not_found_text
         :: [samples.message_sse "b"])
    = _clientx.sse_loop (H := reference)
        ([samples.message_sse "a"] ++ [samples.sse "error" samples.not_found_text]).
Proof. apply (sse_loop_stops_at_error (H := reference)). reflexivity. Defined.

Lemma typed_streams_witness :
  _clientx._chat_messages_stream (H := reference) samples.chat_reply
    = (_clientx.IterSse ::
         (_clientx.Yield <$>
            (decode_all (H := reference) (models.build_chat_stream_response (H := reference))
               (survivors (httpx_sse.incoming samples.chat_reply))).1),
       match (decode_all (H := reference) (models.build_chat_stream_response (H := reference))
                (survivors (httpx_sse.incoming samples.chat_reply))).2 with
       | Some x => _clientx.Raised x
       | None => (_clientx.sse_loop (H := reference) (httpx_sse.incoming samples.chat_reply)).2
       end).
Proof.
  apply (typed_streams (H := reference) samples.chat_reply); vm_compute; reflexivity.
Defined.

(** ** The content-type guard *)

Section guard.
Import _clientx.

Lemma partition_head_app (sep : ascii) (v p : string) :
  has_char sep v = false →
  str.partition_head sep v = v ∧ str.partition_head sep (v +:+ String sep p) = v.
Proof.
  induction v as [|c v IH]; simpl.
  - intros _. by rewrite Ascii.eqb_refl.
  - intros [Hc Hv]%orb_false_iff. rewrite Hc.
    destruct (IH Hv) as [-> ->]. done.
Qed.

Lemma filter_all_out {A} (P : A → Prop) `{∀ x, Decision (P x)} (l : list A) :
  Forall (λ x, ¬ P x) l → filter P l = [].
Proof.
  induction 1 as [|x l Hx _ IH]; [done|]. by rewrite filter_cons_False.
Qed.

Lemma Headers_get_one (pre post : list (string * string)) (name value key dflt : string) :
  str.lower name = str.lower key →
  Forall (λ kv, str.lower kv.1 ≠ str.lower key) pre →
  Forall (λ kv, str.lower kv.1 ≠ str.lower key) post →
  httpx.Headers_get (pre ++ (name, value) :: post) key dflt = value.
Proof.
  intros Hname Hpre Hpost. unfold httpx.Headers_get.
  rewrite filter_app, filter_cons_True by done.
  rewrite (filter_all_out _ pre), (filter_all_out _ post) by done.
  done.
Qed.

Lemma Headers_get_none (hs : list (string * string)) (key dflt : string) :
  Forall (λ kv, str.lower kv.1 ≠ str.lower key) hs →
  httpx.Headers_get hs key dflt = dflt.
Proof. intros Hhs. unfold httpx.Headers_get. by rewrite (filter_all_out _ hs). Qed.

(** X20. The guard reads the content type whatever the case of the header
    name and drops its parameters: for a response with one content-type
    header, it sees the value up to the first semicolon, so
    [text/event-stream; charset=utf-8] passes as [text/event-stream] does. *)
Theorem content_type_parameters (pre post : list (string * string))
    (name value params : string) :
  str.lower name = "content-type" →
  Forall (λ kv, str.lower kv.1 ≠ "content-type") pre →
  Forall (λ kv, str.lower kv.1 ≠ "content-type") post →
  has_char ";" value = false →
  _get_content_type (pre ++ (name, value) :: post) = value ∧
  _get_content_type (pre ++ (name, value +:+ String ";" params) :: post) = value.
Proof.
  intros Hname Hpre Hpost Hvalue. unfold _get_content_type.
  rewrite !Headers_get_one by done.
  by apply partition_head_app.
Qed.

(** X21. A response without a content-type header never passes the guard:
    whatever its status its body is read, and when it is a success the run ends
    in the transport's refusal without a single event. *)
Theorem no_content_type `{Externals} (event_source : httpx_sse.EventSource) :
  Forall (λ kv, str.lower kv.1 ≠ "content-type")
    (httpx.headers (httpx_sse.response event_source)) →
  _check_stream_content_type (httpx_sse.response event_source) = false ∧
  (∃ rest, (request_stream event_source).1 = ReadBody :: rest) ∧
  (httpx.is_success (httpx_sse.response event_source) = true →
     request_stream event_source = ([ReadBody; IterSse], Raised SSEError)).
Proof.
  intros Hhs.
  assert (str.contains "text/event-stream"
            (_get_content_type (httpx.headers (httpx_sse.response event_source))) = false)
    as Hct by (unfold _get_content_type; by rewrite Headers_get_none).
  split_and!.
  - unfold _check_stream_content_type. rewrite Hct. by destruct (httpx.is_success _).
  - destruct (httpx.is_success (httpx_sse.response event_source)) eqn:Hok.
    + rewrite (request_stream_not_a_stream _ Hok Hct). by eexists.
    + destruct (request_stream_refused _ Hok) as (e & _ & ->). by eexists.
  - intros Hok. by apply request_stream_not_a_stream.
Qed.

(** ** More on the request headers *)

(** X22. After preparation the headers always hold an authorization entry,
    under some spelling of the key, and preparing them again, with this or
    any other client's key, changes nothing: a bearer token once set, or a
    caller's own authorization, is never replaced. *)
Theorem prepare_auth_headers_idempotent (self other : Client) (headers : gmap string string) :
  (∃ k, is_Some (_prepare_auth_headers self headers !! k) ∧ str.lower k = "authorization") ∧
  _prepare_auth_headers other (_prepare_auth_headers self headers)
    = _prepare_auth_headers self headers.
Proof.
  assert (∃ k, is_Some (_prepare_auth_headers self headers !! k)
               ∧ str.lower k = "authorization") as Hhas.
  { unfold _prepare_auth_headers. destruct (str_in _ _) eqn:E; simpl.
    - by apply has_authorization.
    - exists "Authorization". split; [|done]. rewrite lookup_insert_eq. by eexists. }
  split; [done|].
  apply has_authorization in Hhas.
  unfold _prepare_auth_headers at 1. by rewrite Hhas.
Qed.

(** X23. The headers mapping that [request] and [request_stream] build and
    pass on to the HTTP client: for a caller who gives [None] or an empty
    mapping it is the single entry [Authorization] with the bearer token; for
    any caller mapping it contains the caller's entries as they are and is
    either that mapping itself or that mapping with the one entry added. *)
Theorem merged_headers_default (self : Client) :
  merged_headers self None = {["Authorization" := "Bearer " +:+ api_key self]} ∧
  merged_headers self (Some ∅) = {["Authorization" := "Bearer " +:+ api_key self]} ∧
  ∀ headers : gmap string string,
    headers ⊆ merged_headers self (Some headers) ∧
    (merged_headers self (Some headers) = headers ∨
     merged_headers self (Some headers)
       = <["Authorization" := "Bearer " +:+ api_key self]> headers) ∧
    (size (merged_headers self (Some headers)) ≤ S (size headers))%nat.
Proof.
  split_and!.
  - unfold merged_headers, _prepare_auth_headers. rewrite map_to_list_empty. simpl.
    by rewrite insert_empty.
  - unfold merged_headers. rewrite bool_decide_eq_true_2 by done.
    unfold _prepare_auth_headers. rewrite map_to_list_empty. simpl.
    by rewrite insert_empty.
  - intros headers. rewrite merged_headers_own. unfold _prepare_auth_headers.
    destruct (str_in _ _) eqn:E; simpl.
    + split_and!; [done | by left | lia].
    + assert (headers !! "Authorization" = None) as Hfresh.
      { destruct (headers !! "Authorization") eqn:Hl; [|done].
        assert (str_in "authorization" (str.lower <$> (map_to_list headers).*1) = true)
          as Hin; [|congruence].
        apply has_authorization. exists "Authorization". split; [by eexists | done]. }
      split_and!; [by apply insert_subseteq | by right |].
      by rewrite map_size_insert_None.
Qed.

End guard.

Lemma content_type_parameters_witness :
  _clientx._get_content_type
    ([("Date", "today")] ++ ("CONTENT-TYPE", "text/event-stream" +:+ String ";" " charset=utf-8")
       :: [("Cache-Control", "no-cache")])
    = "text/event-stream".
Proof.
  assert (∀ k v : string, str.lower k ≠ "content-type" →
            Forall (λ kv : string * string, str.lower kv.1 ≠ "content-type") [(k, v)])
    as Hother by (intros k v Hk; by repeat constructor).
  assert (str.lower "Date" ≠ "content-type") as Hdate by discriminate.
  assert (str.lower "Cache-Control" ≠ "content-type") as Hcache by discriminate.
  apply (content_type_parameters [("Date", "today")] [("Cache-Control", "no-cache")]
           "CONTENT-TYPE" "text/event-stream" " charset=utf-8" eq_refl
           (Hother "Date" "today" Hdate) (Hother "Cache-Control" "no-cache" Hcache) eq_refl).
Defined.

Lemma no_content_type_witness :
  _clientx.request_stream (H := reference)
      {| httpx_sse.response :=
           {| httpx.status_code := 200; httpx.headers := [("Date", "today")];
              httpx.content := "" |};
         httpx_sse.incoming := [samples.message_sse "a"] |}
    = ([_clientx.ReadBody; _clientx.IterSse], _clientx.Raised SSEError).
Proof.
  apply (no_content_type (H := reference)); [|reflexivity].
  repeat constructor. discriminate.
Defined.

(** ** The blocking calls *)

Section blocking_calls.
Import models blocking.
Context `{Externals}.

Lemma request_success (r : httpx.Response) :
  httpx.is_success r = true → request r = Ok r.
Proof. intros Hok. unfold request. simpl. by rewrite Hok. Qed.

Lemma request_failure (r : httpx.Response) :
  httpx.is_success r = false →
  ∃ e, errors.raise_for_status (inl r) = Raise e ∧ request r = Raise e.
Proof.
  intros Hfail. destruct (raise_for_status_response_raises r Hfail) as [e He].
  exists e. split; [done|]. unfold request. by rewrite He.
Qed.

(** X24. [request] hands back the transport's reply, untouched, exactly
    when its status is 2xx; for any other status it raises and returns
    nothing. *)
Theorem request_returns (reply r : httpx.Response) :
  request reply = Ok r ↔ httpx.is_success reply = true ∧ r = reply.
Proof.
  destruct (httpx.is_success reply) eqn:Hok.
  - rewrite (request_success _ Hok). split; [by intros [= ->] | by intros [_ ->]].
  - destruct (request_failure _ Hok) as (e & _ & ->). split; [done | by intros [? _]].
Qed.

(** X25. No blocking call decodes the body of a failed reply as its result:
    feedback, suggestions, upload and stop all end in the failure that
    [raise_for_status] raises for the reply. *)
Theorem blocking_calls_fail (reply : httpx.Response) :
  httpx.is_success reply = false →
  ∃ e, errors.raise_for_status (inl reply) = Raise e ∧
       feedback_messages reply = Raise e ∧
       suggest_messages reply = Raise e ∧
       upload_files reply = Raise e ∧
       _stop_stream reply = Raise e.
Proof.
  intros (e & He & Hreq)%request_failure. exists e.
  unfold feedback_messages, suggest_messages, upload_files, _stop_stream.
  by rewrite Hreq.
Qed.

Lemma validate_fields_ext (fields : list Field) (d1 d2 : gmap string py) :
  (∀ fd, fd ∈ fields → d1 !! field_name fd = d2 !! field_name fd) →
  validate_fields fields d1 = validate_fields fields d2.
Proof.
  induction fields as [|fd rest IH]; [done|]. intros Hagree. simpl.
  rewrite (Hagree fd) by left. rewrite IH; [done|].
  intros fd' Hin. apply Hagree. by right.
Qed.

(** X26. The result of a blocking call depends on the declared fields of
    the reply's body only: two successful replies whose JSON objects agree on
    the fields of the response record give the same result, whatever else the
    bodies hold.  Unknown entries are dropped, they neither fail the decode nor
    reach the caller. *)
Theorem blocking_ignores_extras (cls : plain_shape) (r1 r2 : httpx.Response)
    (d1 d2 : gmap string py) :
  httpx.is_success r1 = true → httpx.is_success r2 = true →
  json_loads (httpx.content r1) = Some (PyDict d1) →
  json_loads (httpx.content r2) = Some (PyDict d2) →
  (∀ fd, fd ∈ plain_fields cls → d1 !! field_name fd = d2 !! field_name fd) →
  from_json cls r1 = from_json cls r2 ∧
  (cls = FeedbackResponse → feedback_messages r1 = feedback_messages r2) ∧
  (cls = ChatSuggestResponse → suggest_messages r1 = suggest_messages r2) ∧
  (cls = UploadFileResponse → upload_files r1 = upload_files r2) ∧
  (cls = StopResponse → _stop_stream r1 = _stop_stream r2).
Proof.
  intros Hok1 Hok2 Hj1 Hj2 Hagree.
  assert (from_json cls r1 = from_json cls r2) as Heq.
  { unfold from_json, httpx.json. rewrite Hj1, Hj2. simpl. unfold plain_init.
    by rewrite (validate_fields_ext _ d1 d2 Hagree). }
  unfold feedback_messages, suggest_messages, upload_files, _stop_stream.
  rewrite !request_success by done. simpl.
  split_and!; [done | by intros <-..].
Qed.

(** X27. A stop or feedback call that succeeds returns the [result] string
    of the reply's body and nothing else; a successful reply whose body has no
    [result] is a validation error. *)
Theorem stop_and_feedback_result (reply : httpx.Response) (d : gmap string py) :
  httpx.is_success reply = true →
  json_loads (httpx.content reply) = Some (PyDict d) →
  (∀ s, d !! "result" = Some (PyStr s) →
     _stop_stream reply
       = Ok {| plain_class := StopResponse; plain_attrs := {["result" := PyStr s]} |} ∧
     feedback_messages reply
       = Ok {| plain_class := FeedbackResponse; plain_attrs := {["result" := PyStr s]} |}) ∧
  (d !! "result" = None →
     _stop_stream reply = Raise ValidationError ∧
     feedback_messages reply = Raise ValidationError).
Proof.
  intros Hok Hjson.
  unfold _stop_stream, feedback_messages. rewrite !request_success by done. simpl.
  unfold from_json, httpx.json. rewrite Hjson. simpl. unfold plain_init. simpl.
  split.
  - intros s ->. simpl. by rewrite insert_empty.
  - by intros ->.
Qed.

End blocking_calls.

(** ** URLs *)

Section urls.
Import url.
Implicit Types (kwargs : gmap string string).

Lemma append_cons (x : ascii) (a b : string) : String x a +:+ b = String x (a +:+ b).
Proof. reflexivity. Qed.

Lemma append_nil (b : string) : EmptyString +:+ b = b.
Proof. reflexivity. Qed.

Lemma append_assoc_char (a : string) (c : ascii) (b : string) :
  (a +:+ String c EmptyString) +:+ b = a +:+ String c b.
Proof. induction a as [|x a IH]; [done|]. by rewrite !append_cons, IH. Qed.

Lemma append_empty_r (a : string) : a +:+ EmptyString = a.
Proof. induction a as [|x a IH]; [done|]. by rewrite append_cons, IH. Qed.

Lemma append_assoc (a b c : string) : (a +:+ b) +:+ c = a +:+ (b +:+ c).
Proof. induction a as [|x a IH]; [done|]. by rewrite !append_cons, IH. Qed.

Lemma prepend_prepend (a b : string) (r : formatted) :
  prepend a (prepend b r) = prepend (a +:+ b) r.
Proof. destruct r; cbn [prepend]; [by rewrite append_assoc | done..]. Qed.

Lemma prepend_nil (r : formatted) : prepend EmptyString r = r.
Proof. by destruct r. Qed.

Lemma format_literal (pre template : string) kwargs :
  brace_free pre = true →
  format_from None (pre +:+ template) kwargs
    = prepend pre (format_from None template kwargs).
Proof.
  induction pre as [|c pre IH].
  - intros _. by rewrite append_nil, prepend_nil.
  - cbn [brace_free]. intros [Hc Hpre]%andb_true_iff.
    apply negb_true_iff, orb_false_iff in Hc as [Hopen Hclose].
    rewrite append_cons. cbn [format_from]. rewrite Hopen, Hclose, (IH Hpre).
    by rewrite prepend_prepend.
Qed.

Lemma format_plain (template : string) kwargs :
  brace_free template = true → format template kwargs = Formatted template.
Proof.
  intros Hfree. unfold format.
  rewrite <- (append_empty_r template) at 1.
  rewrite (format_literal _ _ _ Hfree). cbn [format_from prepend].
  by rewrite append_empty_r.
Qed.

Lemma is_name_char_not_brace (c : ascii) :
  is_name_char c = true → Ascii.eqb c "}" = false.
Proof.
  destruct (Ascii.eqb_spec c "}") as [->|]; [|done]. vm_compute. discriminate.
Qed.

Lemma format_name (acc name rest : string) kwargs :
  is_name name = true →
  format_from (Some acc) (name +:+ String "}" rest) kwargs
    = match acc +:+ name with
      | EmptyString => Unmodelled
      | full =>
          match kwargs !! full with
          | Some v => prepend v (format_from None rest kwargs)
          | None => KeyError full
          end
      end.
Proof.
  revert acc. induction name as [|c name IH]; intros acc.
  - intros _. rewrite append_nil, append_empty_r. cbn [format_from].
    rewrite Ascii.eqb_refl. by destruct acc.
  - cbn [is_name]. intros [Hc Hname]%andb_true_iff.
    rewrite append_cons. cbn [format_from].
    rewrite (is_name_char_not_brace c Hc), Hc, (IH _ Hname), append_assoc_char. done.
Qed.

(** One replacement field between two stretches of plain text. *)
Lemma format_field (pre name post : string) kwargs :
  brace_free pre = true → is_name name = true → name ≠ EmptyString →
  brace_free post = true →
  format (pre +:+ String "{" (name +:+ String "}" post)) kwargs
    = match kwargs !! name with
      | Some v => Formatted (pre +:+ v +:+ post)
      | None => KeyError name
      end.
Proof.
  intros Hpre Hname Hne Hpost. unfold format.
  rewrite (format_literal _ _ _ Hpre). cbn [format_from]. rewrite Ascii.eqb_refl.
  rewrite (format_name EmptyString name post kwargs Hname), append_nil.
  destruct name as [|c name]; [done|]. cbv zeta.
  destruct (kwargs !! String c name) as [v|]; [|reflexivity].
  fold (format post kwargs). rewrite (format_plain _ _ Hpost). reflexivity.
Qed.

(** X28. The URL of an endpoint with a path parameter is the API base,
    the text before the placeholder, the argument and the text after it.  The
    argument is copied as it is, slashes, question marks and braces included:
    it is neither escaped nor scanned for placeholders.  A client whose
    [api_base] is [None] gets a [TypeError] instead of a URL. *)
Theorem endpoint_urls (api_base : option string) (id : string) :
  let url_of path :=
    match api_base with
    | Some base => Formatted (base +:+ path)
    | None => NoneTypeError
    end in
  _prepare_url api_base ENDPOINT_FEEDBACKS {["message_id" := id]}
    = url_of ("/messages/" +:+ id +:+ "/feedbacks") ∧
  _prepare_url api_base ENDPOINT_SUGGESTED {["message_id" := id]}
    = url_of ("/messages/" +:+ id +:+ "/suggested") ∧
  _prepare_url api_base ENDPOINT_STOP_COMPLETION_MESSAGES {["task_id" := id]}
    = url_of ("/completion-messages/" +:+ id +:+ "/stop") ∧
  _prepare_url api_base ENDPOINT_STOP_CHAT_MESSAGES {["task_id" := id]}
    = url_of ("/chat-messages/" +:+ id +:+ "/stop") ∧
  _prepare_url api_base ENDPOINT_STOP_WORKFLOWS {["task_id" := id]}
    = url_of ("/workflows/" +:+ id +:+ "/stop").
Proof.
  intros url_of. unfold _prepare_url.
  split_and!.
  - rewrite (format_field "/messages/" "message_id" "/feedbacks") by done.
    by rewrite lookup_singleton_eq.
  - rewrite (format_field "/messages/" "message_id" "/suggested") by done.
    by rewrite lookup_singleton_eq.
  - rewrite (format_field "/completion-messages/" "task_id" "/stop") by done.
    by rewrite lookup_singleton_eq.
  - rewrite (format_field "/chat-messages/" "task_id" "/stop") by done.
    by rewrite lookup_singleton_eq.
  - rewrite (format_field "/workflows/" "task_id" "/stop") by done.
    by rewrite lookup_singleton_eq.
Qed.

(** X29. An endpoint without a placeholder is appended to the API base as
    it is, whatever arguments come with it, and is a [TypeError] when the base
    is [None]; an endpoint whose placeholder has no argument of that name is a
    [KeyError] for the name, raised before the base is looked at, and no
    URL. *)
Theorem prepare_url_edges (api_base : option string) (pre name post : string) kwargs :
  (∀ endpoint, brace_free endpoint = true →
     _prepare_url api_base endpoint kwargs
       = match api_base with
         | Some base => Formatted (base +:+ endpoint)
         | None => NoneTypeError
         end) ∧
  (brace_free pre = true → is_name name = true → name ≠ EmptyString →
   brace_free post = true → kwargs !! name = None →
     _prepare_url api_base (pre +:+ String "{" (name +:+ String "}" post)) kwargs
       = KeyError name).
Proof.
  unfold _prepare_url. split.
  - intros endpoint Hfree. by rewrite format_plain.
  - intros Hpre Hname Hne Hpost Hnone. rewrite format_field by done. by rewrite Hnone.
Qed.

End urls.

Lemma blocking_calls_fail_witness :
  blocking._stop_stream (H := reference) (httpx_sse.response samples.refused)
    = Raise (DifyError DifyInvalidParam 400 "invalid_param" "bad input").
Proof.
  destruct (blocking_calls_fail (H := reference) (httpx_sse.response samples.refused) eq_refl)
    as (e & He & _ & _ & _ & Hstop).
  assert (errors.raise_for_status (H := reference) (inl (httpx_sse.response samples.refused))
          = Raise (DifyError DifyInvalidParam 400 "invalid_param" "bad input")) as Hraised
    by (vm_compute; reflexivity).
  rewrite Hraised in He. injection He as <-. exact Hstop.
Defined.

Lemma blocking_ignores_extras_witness :
  blocking._stop_stream (H := reference)
      (httpx_sse.response
         (samples.reply 200 "application/json" (samples.object [("result", "success")]) []))
    = blocking._stop_stream (H := reference)
        (httpx_sse.response
           (samples.reply 200 "application/json"
              (samples.object [("result", "success"); ("trace_id", "abc")]) [])).
Proof.
  refine (proj2 (proj2 (proj2 (proj2
    (blocking_ignores_extras (H := reference) blocking.StopResponse
       (httpx_sse.response
          (samples.reply 200 "application/json" (samples.object [("result", "success")]) []))
       (httpx_sse.response
          (samples.reply 200 "application/json"
             (samples.object [("result", "success"); ("trace_id", "abc")]) []))
       (list_to_map [("result", PyStr "success")])
       (list_to_map [("result", PyStr "success"); ("trace_id", PyStr "abc")])
       _ _ _ _ _)))) eq_refl).
  1-4: vm_compute; reflexivity.
  intros fd Hin. apply list_elem_of_singleton in Hin as ->. vm_compute. reflexivity.
Defined.

Lemma stop_and_feedback_result_witness :
  blocking._stop_stream (H := reference)
      (httpx_sse.response
         (samples.reply 200 "application/json" (samples.object [("result", "success")]) []))
    = Ok {| blocking.plain_class := blocking.StopResponse;
            blocking.plain_attrs := {["result" := PyStr "success"]} |}.
Proof.
  refine (proj1 (proj1 (stop_and_feedback_result (H := reference)
    (httpx_sse.response
       (samples.reply 200 "application/json" (samples.object [("result", "success")]) []))
    (list_to_map [("result", PyStr "success")]) _ _) "success" _));
    vm_compute; reflexivity.
Defined.

Lemma prepare_url_edges_witness :
  url._prepare_url (Some "https://api.dify.ai/v1") url.ENDPOINT_FILES_UPLOAD
      {["task_id" := "t-1"]}
    = url.Formatted "https://api.dify.ai/v1/files/upload" ∧
  url._prepare_url None url.ENDPOINT_FILES_UPLOAD ∅ = url.NoneTypeError ∧
  url._prepare_url None url.ENDPOINT_STOP_WORKFLOWS ∅ = url.KeyError "task_id".
Proof.
  split_and!.
  - apply (prepare_url_edges (Some "https://api.dify.ai/v1") "" "" "" {["task_id" := "t-1"]}).
    reflexivity.
  - apply (prepare_url_edges None "" "" "" ∅). reflexivity.
  - apply (prepare_url_edges None "/workflows/" "task_id" "/stop" ∅); done.
Defined.
